(** * rpk [config bootstrap] and the raft probe's metrics

    A shallow embedding of

    - [src/go/rpk/pkg/cli/cmd/config.go]: the [bootstrap] sub-command, with
      its helpers [parseIPs] and [ownIP];
    - the raft probe ([probe::create_metric_labels], [probe::setup_metrics]).

    Go's [(value, error)] results and run-time panics are one [outcome]
    type; the file system, the machine's interface addresses and the order
    of the calls that touch them are threaded through a small state and
    error monad. *)

From Stdlib Require Import String Ascii List ZArith Lia Bool Permutation.
From Stdlib Require Import DecimalString.
Import ListNotations.
Local Open Scope string_scope.
Local Open Scope Z_scope.
Local Open Scope list_scope.

(* ================================================================== *)
(** * Go values and results *)

(** A Go [error] is represented by its message. *)
Definition error := string.

(** The run-time panic of an index expression [s[i]] with [i] outside
    [0 <= i < len(s)]. *)
Inductive panic : Type :=
| IndexOutOfRange (index length : Z).

Inductive outcome (A : Type) : Type :=
| Ok (a : A)
| Err (e : error)
| Panic (p : panic).

Arguments Ok {A} a.
Arguments Err {A} e.
Arguments Panic {A} p.

Definition is_Ok {A} (o : outcome A) : bool :=
  match o with Ok _ => true | _ => false end.

Definition is_Err {A} (o : outcome A) : bool :=
  match o with Err _ => true | _ => false end.

Definition is_Panic {A} (o : outcome A) : bool :=
  match o with Panic _ => true | _ => false end.

(** [len(s)] *)
Definition len {A} (s : list A) : Z := Z.of_nat (length s).

(** [s[i]]: the element, or the index panic. *)
Definition index {A} (s : list A) (i : Z) : outcome A :=
  if (0 <=? i) && (i <? len s)
  then match nth_error s (Z.to_nat i) with
       | Some a => Ok a
       | None => Panic (IndexOutOfRange i (len s))
       end
  else Panic (IndexOutOfRange i (len s)).

(* ================================================================== *)
(** * Package [net]

    [net.IP], [net.ParseIP], [IP.String] and [IP.IsLoopback] belong to Go's
    standard library; the command only calls them, so they are an
    interface here.  [ParseIP] answers [None] where Go answers [nil]. *)

Class Net : Type := {
  IP : Type;
  ParseIP : string -> option IP;
  IP_String : IP -> string;
  IsLoopback : IP -> bool
}.

(** [net.Addr] is an interface; [net.InterfaceAddrs] hands out [*net.IPNet]
    values on the usual platforms, and the type assertion to a pointer to
    [net.IPNet] in [ownIP] tells them from any other implementation. *)
Inductive Addr `{Net} : Type :=
| IPNet (ip : IP) (mask : list Byte.byte)
| OtherAddr (network text : string).

(* ================================================================== *)
(** * Package [vectorized/pkg/config]

    The package is imported by the command; of its [Config] struct the
    command names [ConfigFile], [Redpanda.Id], [Redpanda.SeedServers] and
    the three socket addresses.  Whatever else the structs hold is kept as
    one opaque component each ([config_rest], [redpanda_rest]). *)

Record SocketAddress : Type := {
  Address : string;
  Port : Z
}.

Record SeedServer : Type := {
  seed_Id : Z;
  Host : SocketAddress
}.

Class ConfigShape : Type := {
  RedpandaRest : Type;
  ConfigRest : Type
}.

Record RedpandaConfig `{ConfigShape} : Type := {
  Id : Z;
  RPCServer : SocketAddress;
  KafkaApi : SocketAddress;
  AdminApi : SocketAddress;
  SeedServers : list SeedServer;
  redpanda_rest : RedpandaRest
}.

Record Config `{ConfigShape} : Type := {
  ConfigFile : string;
  Redpanda : RedpandaConfig;
  config_rest : ConfigRest
}.

(** The functions of the package that the command calls.  [Fs] stands for
    [afero.Fs]; a call may change the file system, so each one returns the
    file system it leaves. *)
Class ConfigPkg `{ConfigShape} : Type := {
  Fs : Type;
  DefaultConfig : Config;
  ReadOrGenerate : Fs -> string -> Fs * (error + Config);
  WriteConfig : Fs -> Config -> string -> Fs * option error
}.

(** Field assignments [conf.Redpanda.X = v] and [conf.Redpanda.X.Address = v]. *)
Section Setters.
Context `{ConfigShape}.

Definition set_Address (a : string) (s : SocketAddress) : SocketAddress :=
  {| Address := a; Port := Port s |}.

Definition set_Id (v : Z) (r : RedpandaConfig) : RedpandaConfig :=
  {| Id := v; RPCServer := RPCServer r; KafkaApi := KafkaApi r;
     AdminApi := AdminApi r; SeedServers := SeedServers r;
     redpanda_rest := redpanda_rest r |}.

Definition set_RPCServer_Address (a : string) (r : RedpandaConfig) : RedpandaConfig :=
  {| Id := Id r; RPCServer := set_Address a (RPCServer r); KafkaApi := KafkaApi r;
     AdminApi := AdminApi r; SeedServers := SeedServers r;
     redpanda_rest := redpanda_rest r |}.

Definition set_KafkaApi_Address (a : string) (r : RedpandaConfig) : RedpandaConfig :=
  {| Id := Id r; RPCServer := RPCServer r; KafkaApi := set_Address a (KafkaApi r);
     AdminApi := AdminApi r; SeedServers := SeedServers r;
     redpanda_rest := redpanda_rest r |}.

Definition set_AdminApi_Address (a : string) (r : RedpandaConfig) : RedpandaConfig :=
  {| Id := Id r; RPCServer := RPCServer r; KafkaApi := KafkaApi r;
     AdminApi := set_Address a (AdminApi r); SeedServers := SeedServers r;
     redpanda_rest := redpanda_rest r |}.

Definition set_SeedServers (s : list SeedServer) (r : RedpandaConfig) : RedpandaConfig :=
  {| Id := Id r; RPCServer := RPCServer r; KafkaApi := KafkaApi r;
     AdminApi := AdminApi r; SeedServers := s;
     redpanda_rest := redpanda_rest r |}.

Definition upd_Redpanda (f : RedpandaConfig -> RedpandaConfig) (c : Config) : Config :=
  {| ConfigFile := ConfigFile c; Redpanda := f (Redpanda c);
     config_rest := config_rest c |}.
End Setters.

(* ================================================================== *)
(** * The world the command runs in *)

Section Command.
Context `{Net} `{ConfigPkg}.

(** The calls that reach outside the process, in the order made. *)
Inductive Event : Type :=
| EvReadOrGenerate (path : string)
| EvInterfaceAddrs
| EvWriteConfig (conf : Config) (path : string).

(** [w_ifaddrs] is what [net.InterfaceAddrs()] answers on this machine. *)
Record World : Type := {
  w_fs : Fs;
  w_ifaddrs : error + list Addr;
  w_trace : list Event
}.

Definition M (A : Type) : Type := World -> outcome A * World.

Definition ret {A} (a : A) : M A := fun w => (Ok a, w).

Definition fail {A} (e : error) : M A := fun w => (Err e, w).

Definition lift {A} (o : outcome A) : M A := fun w => (o, w).

Definition bind {A B} (m : M A) (k : A -> M B) : M B :=
  fun w =>
    match m w with
    | (Ok a, w') => k a w'
    | (Err e, w') => (Err e, w')
    | (Panic p, w') => (Panic p, w')
    end.

Definition record (e : Event) (w : World) : World :=
  {| w_fs := w_fs w; w_ifaddrs := w_ifaddrs w; w_trace := w_trace w ++ [e] |}.

(** [net.InterfaceAddrs()] *)
Definition InterfaceAddrs : M (list Addr) :=
  fun w =>
    let w' := record EvInterfaceAddrs w in
    match w_ifaddrs w with
    | inl e => (Err e, w')
    | inr addrs => (Ok addrs, w')
    end.

(** [config.ReadOrGenerate(fs, configPath)] *)
Definition readOrGenerate (path : string) : M Config :=
  fun w =>
    let (fs', r) := ReadOrGenerate (w_fs w) path in
    let w' := {| w_fs := fs'; w_ifaddrs := w_ifaddrs w;
                 w_trace := w_trace w ++ [EvReadOrGenerate path] |} in
    match r with
    | inl e => (Err e, w')
    | inr conf => (Ok conf, w')
    end.

(** [config.WriteConfig(fs, conf, configPath)] *)
Definition writeConfig (conf : Config) (path : string) : M unit :=
  fun w =>
    let (fs', r) := WriteConfig (w_fs w) conf path in
    let w' := {| w_fs := fs'; w_ifaddrs := w_ifaddrs w;
                 w_trace := w_trace w ++ [EvWriteConfig conf path] |} in
    match r with
    | Some e => (Err e, w')
    | None => (Ok tt, w')
    end.

Notation "x <- c1 ;; c2" := (bind c1 (fun x => c2))
  (at level 61, c1 at next level, right associativity).

(* ================================================================== *)
(** * [config.go] *)

(** ** [parseIPs] *)

(** The loop of [parseIPs], with [parsed] as it stands when [ips] remain. *)
Fixpoint parseIPs_loop (parsed : list IP) (ips : list string) : outcome (list IP) :=
  match ips with
  | [] => Ok parsed
  | i :: rest =>
      match ParseIP i with
      | None => Err (i ++ " is not a valid IP.")%string
      | Some p => parseIPs_loop (parsed ++ [p]) rest
      end
  end.

Definition parseIPs (ips : list string) : outcome (list IP) :=
  parseIPs_loop [] ips.

(** ** [ownIP] *)

(** One turn of the loop over [addrs]: an [IPNet] that is not a loopback
    address is appended to [filtered]. *)
Definition ownIP_step (filtered : list IP) (a : Addr) : list IP :=
  match a with
  | IPNet ip _ => if negb (IsLoopback ip) then filtered ++ [ip] else filtered
  | OtherAddr _ _ => filtered
  end.

Definition ownIP_filtered (addrs : list Addr) : list IP :=
  fold_left ownIP_step addrs [].

Definition err_multiple : error :=
  "found multiple non-loopback IPs for the current node. Try setting --self.".

Definition err_none : error :=
  "couldn't find any non-loopback IPs for the current node.".

Definition ownIP : M IP :=
  addrs <- InterfaceAddrs ;;
  let filtered := ownIP_filtered addrs in
  if 1 <? len filtered then fail err_multiple
  else if len filtered =? 1 then fail err_none
  else lift (index filtered 0).

(** ** [bootstrap] *)

(** The variables the flags are bound to. *)
Record Flags : Type := {
  ips : list string;
  self : string;
  id : Z;
  configPath : string
}.

(** One turn of [for i, ip := range ips]: the state is the next index and
    [seeds]. *)
Definition seeds_step (defaultRpcPort : Z) (st : Z * list SeedServer) (ip : IP)
  : Z * list SeedServer :=
  let (i, seeds) := st in
  (i + 1,
   seeds ++ [ {| seed_Id := i;
                 Host := {| Address := IP_String ip; Port := defaultRpcPort |} |} ]).

Definition make_seeds (defaultRpcPort : Z) (ips : list IP) : list SeedServer :=
  snd (fold_left (seeds_step defaultRpcPort) ips (0, [])).

Definition err_no_flags : error := "either --ips or --self must be passed.".

(** The assignments of lines 107 to 123, on the configuration read. *)
Definition configure (conf : Config) (id : Z) (ownIp : IP) (seeds : list SeedServer)
  : Config :=
  let conf := upd_Redpanda (set_Id id) conf in
  let conf := upd_Redpanda (set_RPCServer_Address (IP_String ownIp)) conf in
  let conf := upd_Redpanda (set_KafkaApi_Address (IP_String ownIp)) conf in
  let conf := upd_Redpanda (set_AdminApi_Address (IP_String ownIp)) conf in
  let conf := upd_Redpanda (set_SeedServers []) conf in
  upd_Redpanda (set_SeedServers seeds) conf.

(** The [RunE] closure of the command. *)
Definition bootstrap_RunE (f : Flags) : M unit :=
  let defaultRpcPort := Port (RPCServer (Redpanda DefaultConfig)) in
  if (len (ips f) =? 0) && (self f =? EmptyString)%string
  then fail err_no_flags
  else
    conf <- readOrGenerate (configPath f) ;;
    ips <- lift (parseIPs (ips f)) ;;
    ownIp <- (if negb (self f =? EmptyString)%string
              then match ParseIP (self f) with
                   | None => fail (self f ++ " is not a valid IP.")%string
                   | Some ip => ret ip
                   end
              else ownIP) ;;
    let seeds := make_seeds defaultRpcPort ips in
    writeConfig (configure conf (id f) ownIp seeds) (configPath f).

(** What the command line gave: [None] for a flag that was not passed. *)
Record CmdLine : Type := {
  arg_ips : option (list string);
  arg_self : option string;
  arg_id : option Z;
  arg_config : option string
}.

Definition dquote : string := String (ascii_of_nat 34) EmptyString.

(** cobra's answer when a flag marked required was not passed. *)
Definition err_required (flag : string) : error :=
  ("required flag(s) " ++ dquote ++ flag ++ dquote ++ " not set")%string.

(** The flag declarations of lines 127 to 151: each variable takes the
    value passed, or the declared default. *)
Definition bind_flags (c : CmdLine) : Flags :=
  {| ips := match arg_ips c with Some l => l | None => [] end;
     self := match arg_self c with Some s => s | None => EmptyString end;
     id := match arg_id c with Some n => n | None => -1 end;
     configPath := match arg_config c with
                   | Some p => p
                   | None => ConfigFile DefaultConfig
                   end |}.

(** Running the command: [cobra.MarkFlagRequired(c.Flags(), "id")] makes
    cobra refuse, before [RunE], a command line without [--id]. *)
Definition bootstrap (c : CmdLine) : M unit :=
  match arg_id c with
  | None => fail (err_required "id")
  | Some _ => bootstrap_RunE (bind_flags c)
  end.

(** ** Reading a run *)

(** The configurations handed to [WriteConfig], with their paths. *)
Definition writes (t : list Event) : list (Config * string) :=
  flat_map (fun e => match e with
                     | EvWriteConfig conf path => [(conf, path)]
                     | _ => []
                     end) t.

(** Whether [net.InterfaceAddrs] was called. *)
Definition asked_addrs (t : list Event) : bool :=
  existsb (fun e => match e with EvInterfaceAddrs => true | _ => false end) t.

(** The addresses of [addrs] that are [IPNet]s and not loopback ones, in
    their order. *)
Definition non_loopback (addrs : list Addr) : list IP :=
  flat_map (fun a => match a with
                     | IPNet ip _ => if IsLoopback ip then [] else [ip]
                     | OtherAddr _ _ => []
                     end) addrs.

(** The world [ReadOrGenerate] leaves, and the one [WriteConfig] leaves. *)
Definition after_read (path : string) (w : World) : World :=
  {| w_fs := fst (ReadOrGenerate (w_fs w) path);
     w_ifaddrs := w_ifaddrs w;
     w_trace := w_trace w ++ [EvReadOrGenerate path] |}.

Definition after_write (conf : Config) (path : string) (w : World) : World :=
  {| w_fs := fst (WriteConfig (w_fs w) conf path);
     w_ifaddrs := w_ifaddrs w;
     w_trace := w_trace w ++ [EvWriteConfig conf path] |}.

(** The seed of position [i] for the address [ip]. *)
Definition seed_at (defaultRpcPort : Z) (i : nat) (ip : IP) : SeedServer :=
  {| seed_Id := Z.of_nat i;
     Host := {| Address := IP_String ip; Port := defaultRpcPort |} |}.

End Command.

(* ================================================================== *)
(** * The raft probe *)

(** [model::ntp]: namespace, topic and partition of a group. *)
Record topic_partition : Type := {
  topic : string;
  partition : Z
}.

Record ntp : Type := {
  ns : string;
  tp : topic_partition
}.

(** A label value is handed to seastar as a string or as an integer; seastar
    prints it. *)
Inductive label_value : Type :=
| LabelStr (s : string)
| LabelInt (n : Z).

Record label_instance : Type := {
  label_key : string;
  label_val : label_value
}.

(** [sm::label(key)] is a factory: applied to a value it gives the
    instance. *)
Definition label (key : string) (v : label_value) : label_instance :=
  {| label_key := key; label_val := v |}.

(** The counters of the probe that [setup_metrics] reads. *)
Record counters : Type := {
  _vote_requests : Z;
  _append_requests : Z;
  _vote_requests_sent : Z;
  _replicate_requests_ack_all : Z;
  _replicate_requests_ack_leader : Z;
  _replicate_requests_ack_none : Z;
  _replicate_requests_done : Z;
  _log_flushes : Z;
  _log_truncations : Z;
  _leadership_changes : Z;
  _replicate_request_error : Z;
  _heartbeat_request_error : Z;
  _recovery_request_error : Z
}.

(** What [sm::make_counter(name, getter, description, labels)] builds; the
    getter captures [this] and reads a counter when the metric is sampled. *)
Record metric_definition : Type := {
  metric_name : string;
  metric_get : counters -> Z;
  metric_description : string;
  metric_labels : list label_instance
}.

Definition make_counter (name : string) (get : counters -> Z)
  (description : string) (labels : list label_instance) : metric_definition :=
  {| metric_name := name; metric_get := get;
     metric_description := description; metric_labels := labels |}.

(** [ss::metrics::metric_groups]: the groups added so far. *)
Definition metric_groups : Type := list (string * list metric_definition).

Definition add_group (name : string) (defs : list metric_definition)
  (g : metric_groups) : metric_groups :=
  g ++ [(name, defs)].

Record probe : Type := {
  probe_counters : counters;
  _metrics : metric_groups
}.

Definition create_metric_labels (n : ntp) : list label_instance :=
  let ns_label := label "namespace" in
  let topic_label := label "topic" in
  let partition_label := label "partition" in
  [ ns_label (LabelStr (ns n));
    topic_label (LabelStr (topic (tp n)));
    partition_label (LabelInt (partition (tp n))) ].

(** The initializer list handed to [add_group]. *)
Definition raft_metrics (labels : list label_instance) : list metric_definition :=
  [ make_counter "received_vote_requests" _vote_requests
      "Number of vote requests received" labels;
    make_counter "received_append_requests" _append_requests
      "Number of append requests received" labels;
    make_counter "sent_vote_requests" _vote_requests_sent
      "Number of vote requests sent" labels;
    make_counter "replicate_ack_all_requests" _replicate_requests_ack_all
      "Number of replicate requests with quorum ack consistency" labels;
    make_counter "replicate_ack_leader_requests" _replicate_requests_ack_leader
      "Number of replicate requests with leader ack consistency" labels;
    make_counter "replicate_ack_none_requests" _replicate_requests_ack_none
      "Number of replicate requests with no ack consistency" labels;
    make_counter "done_replicate_requests" _replicate_requests_done
      "Number of finished replicate requests" labels;
    make_counter "log_flushes" _log_flushes
      "Number of log flushes" labels;
    make_counter "log_truncations" _log_truncations
      "Number of log truncations" labels;
    make_counter "leadership_changes" _leadership_changes
      "Number of leadership changes" labels;
    make_counter "replicate_request_errors" _replicate_request_error
      "Number of failed replicate requests" labels;
    make_counter "heartbeat_requests_errors" _heartbeat_request_error
      "Number of failed heartbeat requests" labels;
    make_counter "recovery_requests_errors" _recovery_request_error
      "Number of failed recovery requests" labels ].

Section Probe.

(** [prometheus_sanitize::metrics_name], declared in
    [prometheus/prometheus_sanitize.h]. *)
Variable metrics_name : string -> string.

Definition setup_metrics (p : probe) (n : ntp) : probe :=
  let labels := create_metric_labels n in
  {| probe_counters := probe_counters p;
     _metrics := add_group (metrics_name "raft") (raft_metrics labels) (_metrics p) |}.

(** The metric definitions a probe holds, over all its groups. *)
Definition registered (p : probe) : list metric_definition :=
  concat (map snd (_metrics p)).

End Probe.

(** ** The counters of the external-interface contract

    The second reading of the metrics, after the words of the contract: one
    constructor per counter it names. *)

Inductive ack_policy : Type := quorum | leader_only | none.

Inductive contract_counter : Type :=
| VotesReceived
| VotesSent
| AppendRequestsReceived
| ReplicateRequests (policy : ack_policy)
| CompletedReplicateRequests
| LogFlushes
| LogTruncations
| LeadershipChanges
| ReplicateFailures
| HeartbeatFailures
| RecoveryFailures.

(** The contract's list, in its order. *)
Definition contract_counters : list contract_counter :=
  [ VotesReceived; VotesSent; AppendRequestsReceived;
    ReplicateRequests quorum; ReplicateRequests leader_only; ReplicateRequests none;
    CompletedReplicateRequests; LogFlushes; LogTruncations; LeadershipChanges;
    ReplicateFailures; HeartbeatFailures; RecoveryFailures ].

(** The name under which the probe exports each counter of the contract. *)
Definition contract_name (c : contract_counter) : string :=
  match c with
  | VotesReceived => "received_vote_requests"
  | VotesSent => "sent_vote_requests"
  | AppendRequestsReceived => "received_append_requests"
  | ReplicateRequests quorum => "replicate_ack_all_requests"
  | ReplicateRequests leader_only => "replicate_ack_leader_requests"
  | ReplicateRequests none => "replicate_ack_none_requests"
  | CompletedReplicateRequests => "done_replicate_requests"
  | LogFlushes => "log_flushes"
  | LogTruncations => "log_truncations"
  | LeadershipChanges => "leadership_changes"
  | ReplicateFailures => "replicate_request_errors"
  | HeartbeatFailures => "heartbeat_requests_errors"
  | RecoveryFailures => "recovery_requests_errors"
  end.

(** The three labels of a group identity, as the contract scopes a counter. *)
Definition contract_labels (n : ntp) : list (string * label_value) :=
  [ ("namespace"%string, LabelStr (ns n));
    ("topic"%string, LabelStr (topic (tp n)));
    ("partition"%string, LabelInt (partition (tp n))) ].

Definition label_pair (l : label_instance) : string * label_value :=
  (label_key l, label_val l).

(** ** Traffic counters by direction and message *)

Inductive direction : Type := received | sent.

Inductive message : Type := vote | append.

Definition direction_word (d : direction) : string :=
  match d with received => "received" | sent => "sent" end.

Definition message_word (m : message) : string :=
  match m with vote => "vote" | append => "append" end.

(** [mentions w s]: the word [w] occurs in [s]. *)
Fixpoint mentions (w s : string) : bool :=
  String.prefix w s ||
  match s with
  | EmptyString => false
  | String _ rest => mentions w rest
  end.

(** A metric counts the [m] requests going in direction [d] when its name,
    or its description, says both. *)
Definition counts_traffic (d : direction) (m : message) (def : metric_definition) : bool :=
  (mentions (direction_word d) (metric_name def)
   && mentions (message_word m) (metric_name def))
  || (mentions (direction_word d) (metric_description def)
      && mentions (message_word m) (metric_description def)).

(* ================================================================== *)
(** * A machine to run the command on

    An implementation of the two interfaces, small enough to evaluate:
    IPv4 addresses in dotted-decimal form, and a file system that maps a
    path to the configuration stored there. *)

Module InMemory.

(** ** Dotted-decimal IPv4 addresses: four octets *)

Definition digit (c : ascii) : option Z :=
  let n := Z.of_nat (nat_of_ascii c) in
  if (48 <=? n) && (n <=? 57) then Some (n - 48) else None.

(** [octets s cur acc]: [acc] holds the octets read, [cur] the value of the
    digits of the octet being read, if any. *)
Fixpoint octets (s : string) (cur : option Z) (acc : list Z) : option (list Z) :=
  match s with
  | EmptyString =>
      match cur with
      | Some n => Some (acc ++ [n])
      | None => None
      end
  | String c rest =>
      if (c =? ".")%char
      then match cur with
           | Some n => octets rest None (acc ++ [n])
           | None => None
           end
      else match digit c with
           | Some d =>
               let n := match cur with Some n => 10 * n + d | None => d end in
               if n <=? 255 then octets rest (Some n) acc else None
           | None => None
           end
  end.

Definition parse_v4 (s : string) : option (list Z) :=
  match octets s None [] with
  | Some [a; b; c; d] => Some [a; b; c; d]
  | _ => None
  end.

Definition digit_char (d : Z) : string :=
  String (ascii_of_nat (Z.to_nat (48 + d))) EmptyString.

Definition decimal (n : Z) : string :=
  if n <? 10 then digit_char n
  else if n <? 100 then (digit_char (n / 10) ++ digit_char (n mod 10))%string
  else (digit_char (n / 100) ++ digit_char ((n / 10) mod 10)
        ++ digit_char (n mod 10))%string.

Definition print_v4 (ip : list Z) : string :=
  String.concat "." (map decimal ip).

Definition loopback_v4 (ip : list Z) : bool :=
  match ip with
  | first :: _ => first =? 127
  | [] => false
  end.

#[export] Instance net : Net := {
  IP := list Z;
  ParseIP := parse_v4;
  IP_String := print_v4;
  IsLoopback := loopback_v4
}.

(** ** Configurations in memory *)

(** The rest of the structs: a data directory, a pid file. *)
#[export] Instance shape : ConfigShape := {
  RedpandaRest := string;
  ConfigRest := string
}.

Definition default_config : Config :=
  {| ConfigFile := "/etc/redpanda/redpanda.yaml";
     Redpanda :=
       {| Id := 0;
          RPCServer := {| Address := "0.0.0.0"; Port := 33145 |};
          KafkaApi := {| Address := "0.0.0.0"; Port := 9092 |};
          AdminApi := {| Address := "0.0.0.0"; Port := 9644 |};
          SeedServers := [];
          redpanda_rest := "/var/lib/redpanda/data" |};
     config_rest := "/var/lib/redpanda/pid" |}.

Definition files : Type := list (string * Config).

Fixpoint lookup (path : string) (fs : files) : option Config :=
  match fs with
  | [] => None
  | (p, c) :: rest => if (p =? path)%string then Some c else lookup path rest
  end.

(** A missing file is generated: the default configuration, stored under
    the path asked for. *)
Definition read_or_generate (fs : files) (path : string)
  : files * (error + Config) :=
  match lookup path fs with
  | Some c => (fs, inr c)
  | None =>
      let c := {| ConfigFile := path; Redpanda := Redpanda default_config;
                  config_rest := config_rest default_config |} in
      ((path, c) :: fs, inr c)
  end.

Definition write_config (fs : files) (c : Config) (path : string)
  : files * option error :=
  ((path, c) :: fs, None).

#[export] Instance pkg : ConfigPkg := {
  Fs := files;
  DefaultConfig := default_config;
  ReadOrGenerate := read_or_generate;
  WriteConfig := write_config
}.

(** ** Some inputs *)

Definition mask24 : list Byte.byte := [Byte.xff; Byte.xff; Byte.xff; Byte.x00].
Definition mask8 : list Byte.byte := [Byte.xff; Byte.x00; Byte.x00; Byte.x00].

Definition lo : Addr := IPNet [127; 0; 0; 1] mask8.
Definition eth0 : Addr := IPNet [192; 168; 1; 10] mask24.
Definition eth1 : Addr := IPNet [10; 0; 0; 7] mask24.

(** An empty file system, the interface addresses [addrs], nothing called
    yet. *)
Definition machine (addrs : list Addr) : World :=
  {| w_fs := ([] : files); w_ifaddrs := inr addrs; w_trace := [] |}.

Definition cmdline (ips : option (list string)) (self : option string)
  (id : option Z) : CmdLine :=
  {| arg_ips := ips; arg_self := self; arg_id := id; arg_config := None |}.

Definition raft0 : ntp :=
  {| ns := "kafka"; tp := {| topic := "orders"; partition := 3 |} |}.

Definition zero_counters : counters :=
  {| _vote_requests := 0; _append_requests := 0; _vote_requests_sent := 0;
     _replicate_requests_ack_all := 0; _replicate_requests_ack_leader := 0;
     _replicate_requests_ack_none := 0; _replicate_requests_done := 0;
     _log_flushes := 0; _log_truncations := 0; _leadership_changes := 0;
     _replicate_request_error := 0; _heartbeat_request_error := 0;
     _recovery_request_error := 0 |}.

Definition fresh_probe : probe :=
  {| probe_counters := zero_counters; _metrics := [] |}.

End InMemory.


(* ================================================================== *)
(** * [config set] *)

Section SetCommand.
Context `{ConfigPkg}.

(** [config.Set(fs, key, value, format, configPath)], of the package
    [vectorized/pkg/config]: it answers an error or [nil], and leaves a
    file system. *)
Variable config_Set : Fs -> string -> string -> string -> string -> Fs * option error.

(** [%d] *)
Definition decimal_of_Z (n : Z) : string := NilZero.string_of_int (Z.to_int n).

(** cobra's answer when [ExactArgs(n)] meets another number of arguments. *)
Definition err_exact_args (n received : Z) : error :=
  ("accepts " ++ decimal_of_Z n ++ " arg(s), received " ++ decimal_of_Z received)%string.

(** [cobra.ExactArgs(n)] *)
Definition ExactArgs (n : Z) (args : list string) : option error :=
  if len args =? n then None else Some (err_exact_args n (len args)).

(** The variables the flags of [set] are bound to. *)
Record SetFlags : Type := {
  format : string;
  set_configPath : string
}.

Record SetCmdLine : Type := {
  arg_format : option string;
  arg_set_config : option string
}.

(** The flag declarations of lines 41 to 54. *)
Definition bind_set_flags (c : SetCmdLine) : SetFlags :=
  {| format := match arg_format c with Some s => s | None => "single"%string end;
     set_configPath := match arg_set_config c with
                       | Some p => p
                       | None => ConfigFile DefaultConfig
                       end |}.

(** The [RunE] closure of [set]: [args[0]] and [args[1]] are index
    expressions. *)
Definition set_RunE (f : SetFlags) (args : list string) (fs : Fs) : outcome unit * Fs :=
  match index args 0 with
  | Ok key =>
      match index args 1 with
      | Ok value =>
          let (fs', r) := config_Set fs key value (format f) (set_configPath f) in
          (match r with Some e => Err e | None => Ok tt end, fs')
      | Err e => (Err e, fs)
      | Panic p => (Panic p, fs)
      end
  | Err e => (Err e, fs)
  | Panic p => (Panic p, fs)
  end.

(** Running the command: cobra checks [Args] before it calls [RunE]. *)
Definition set (c : SetCmdLine) (args : list string) (fs : Fs) : outcome unit * Fs :=
  match ExactArgs 2 args with
  | Some e => (Err e, fs)
  | None => set_RunE (bind_set_flags c) args fs
  end.

End SetCommand.

(* ================================================================== *)
(** * Reading the probe's metrics *)


(** Sampling: every getter is run on the counters as they stand. *)
Definition sample (cs : counters) (defs : list metric_definition) : list (string * Z) :=
  map (fun d => (metric_name d, metric_get d cs)) defs.

(* ================================================================== *)
(** * Facts about [config.go] *)

Section CommandFacts.
Context `{Net} `{ConfigPkg}.

(** ** The loops *)

Lemma ownIP_filtered_from (addrs : list Addr) (acc : list IP) :
  fold_left ownIP_step addrs acc = acc ++ non_loopback addrs.
Proof.
  revert acc; induction addrs as [|a addrs IH]; intros acc; simpl.
  - now rewrite app_nil_r.
  - rewrite IH. destruct a as [ip mask|network text]; simpl.
    + destruct (IsLoopback ip); simpl; [reflexivity|].
      now rewrite <- app_assoc.
    + reflexivity.
Qed.

Lemma ownIP_filtered_spec (addrs : list Addr) :
  ownIP_filtered addrs = non_loopback addrs.
Proof. unfold ownIP_filtered. now rewrite ownIP_filtered_from. Qed.

Lemma len_nil {A} : len (@nil A) = 0.
Proof. reflexivity. Qed.

Lemma len_cons {A} (a : A) (l : list A) : len (a :: l) = 1 + len l.
Proof. unfold len; simpl length; lia. Qed.

Lemma len_nonneg {A} (l : list A) : 0 <= len l.
Proof. unfold len; lia. Qed.

(** What [ownIP] answers, by the number of non-loopback addresses. *)
Lemma ownIP_cases (w : World) (addrs : list Addr) :
  w_ifaddrs w = inr addrs ->
  ownIP w =
    (match non_loopback addrs with
     | [] => Panic (IndexOutOfRange 0 0)
     | [_] => Err err_none
     | _ :: _ :: _ => Err err_multiple
     end, record EvInterfaceAddrs w).
Proof.
  intros Haddrs. unfold ownIP, bind, InterfaceAddrs. rewrite Haddrs.
  rewrite ownIP_filtered_spec.
  destruct (non_loopback addrs) as [|ip [|ip' rest]].
  - reflexivity.
  - reflexivity.
  - replace (1 <? len (ip :: ip' :: rest)) with true; [reflexivity|].
    symmetry; apply Z.ltb_lt. rewrite !len_cons. pose proof (len_nonneg rest). lia.
Qed.

Lemma ownIP_addrs_error (w : World) (e : error) :
  w_ifaddrs w = inl e ->
  ownIP w = (Err e, record EvInterfaceAddrs w).
Proof.
  intros He. unfold ownIP, bind, InterfaceAddrs. now rewrite He.
Qed.

(** [ownIP] has no run that ends with an address. *)
Lemma ownIP_never_Ok (w : World) : is_Ok (fst (ownIP w)) = false.
Proof.
  destruct (w_ifaddrs w) as [e|addrs] eqn:E.
  - now rewrite (ownIP_addrs_error _ _ E).
  - rewrite (ownIP_cases _ _ E).
    now destruct (non_loopback addrs) as [|ip [|ip' rest]].
Qed.

Lemma ownIP_world (w : World) : snd (ownIP w) = record EvInterfaceAddrs w.
Proof.
  destruct (w_ifaddrs w) as [e|addrs] eqn:E.
  - now rewrite (ownIP_addrs_error _ _ E).
  - now rewrite (ownIP_cases _ _ E).
Qed.

(** [parseIPs] stops at the first element that does not parse, and
    otherwise answers the parsed addresses in the order given. *)
Lemma parseIPs_loop_spec (ips : list string) :
  forall acc,
    match parseIPs_loop acc ips with
    | Ok l => exists parsed, l = acc ++ parsed /\ map ParseIP ips = map Some parsed
    | Err e => exists i, In i ips /\ ParseIP i = None
                         /\ e = (i ++ " is not a valid IP.")%string
    | Panic _ => False
    end.
Proof.
  induction ips as [|i ips IH]; intros acc; simpl.
  - exists []. now rewrite app_nil_r.
  - destruct (ParseIP i) as [p|] eqn:E.
    + specialize (IH (acc ++ [p])).
      destruct (parseIPs_loop (acc ++ [p]) ips) as [l|e|pn].
      * destruct IH as (parsed & -> & Hmap). exists (p :: parsed).
        rewrite <- app_assoc. simpl. now rewrite Hmap.
      * destruct IH as (j & Hin & Hj & ->). exists j. auto.
      * exact IH.
    + exists i. auto.
Qed.

Lemma parseIPs_ok (ips : list string) (parsed : list IP) :
  parseIPs ips = Ok parsed -> map ParseIP ips = map Some parsed.
Proof.
  intros E. pose proof (parseIPs_loop_spec ips []) as S.
  unfold parseIPs in E. rewrite E in S. now destruct S as (l & -> & Hmap).
Qed.

Lemma parseIPs_all_valid (ips : list string) (parsed : list IP) :
  map ParseIP ips = map Some parsed -> parseIPs ips = Ok parsed.
Proof.
  intros Hmap. pose proof (parseIPs_loop_spec ips []) as S.
  unfold parseIPs. destruct (parseIPs_loop [] ips) as [l|e|pn].
  - destruct S as (parsed' & -> & Hmap'). simpl. f_equal.
    rewrite Hmap in Hmap'. clear Hmap.
    revert parsed' Hmap'. induction parsed as [|a parsed IH]; intros [|b q] E;
      simpl in E; try discriminate; [reflexivity|].
    injection E as -> E. f_equal. now apply IH.
  - destruct S as (i & Hin & Hi & _). exfalso.
    assert (In (ParseIP i) (map Some parsed)) as Hin'
      by (rewrite <- Hmap; now apply in_map).
    rewrite Hi in Hin'. apply in_map_iff in Hin'.
    now destruct Hin' as (x & Hx & _).
  - contradiction.
Qed.


Lemma parseIPs_never_panics (ips : list string) : is_Panic (parseIPs ips) = false.
Proof.
  pose proof (parseIPs_loop_spec ips []) as S. unfold parseIPs.
  now destruct (parseIPs_loop [] ips).
Qed.

(** The seeds loop numbers the addresses from the index it starts at. *)
Lemma seeds_loop_from (port : Z) (ips : list IP) :
  forall (i : nat) (acc : list SeedServer),
    fold_left (seeds_step port) ips (Z.of_nat i, acc) =
    (Z.of_nat (i + length ips),
     acc ++ map (fun p => seed_at port (fst p) (snd p))
                (combine (seq i (length ips)) ips)).
Proof.
  induction ips as [|ip ips IH]; intros i acc; simpl.
  - now rewrite Nat.add_0_r, app_nil_r.
  - replace (Z.of_nat i + 1) with (Z.of_nat (S i)) by lia.
    rewrite IH. f_equal; [f_equal; lia|].
    now rewrite <- app_assoc.
Qed.

Lemma make_seeds_spec (port : Z) (ips : list IP) :
  make_seeds port ips =
  map (fun p => seed_at port (fst p) (snd p)) (combine (seq 0 (length ips)) ips).
Proof.
  unfold make_seeds. change 0 with (Z.of_nat 0).
  now rewrite seeds_loop_from.
Qed.

Lemma make_seeds_length (port : Z) (ips : list IP) :
  length (make_seeds port ips) = length ips.
Proof.
  rewrite make_seeds_spec, length_map, length_combine, length_seq.
  apply Nat.min_id.
Qed.

Lemma nth_error_combine_seq {A} (l : list A) :
  forall (start k : nat),
    nth_error (combine (seq start (length l)) l) k =
    option_map (fun a => (start + k, a)%nat) (nth_error l k).
Proof.
  induction l as [|a l IH]; intros start k; simpl.
  - now destruct k.
  - destruct k as [|k]; simpl.
    + now rewrite Nat.add_0_r.
    + rewrite IH. destruct (nth_error l k); simpl; [|reflexivity].
      do 2 f_equal. lia.
Qed.

Lemma make_seeds_nth (port : Z) (ips : list IP) (k : nat) :
  nth_error (make_seeds port ips) k = option_map (seed_at port k) (nth_error ips k).
Proof.
  rewrite make_seeds_spec, nth_error_map, nth_error_combine_seq.
  now destruct (nth_error ips k).
Qed.

(** ** The run of [RunE], branch by branch *)

Lemma readOrGenerate_run (path : string) (w : World) :
  readOrGenerate path w =
  (match snd (ReadOrGenerate (w_fs w) path) with
   | inl e => Err e
   | inr conf => Ok conf
   end, after_read path w).
Proof.
  unfold readOrGenerate, after_read.
  destruct (ReadOrGenerate (w_fs w) path) as [fs' [e|conf]]; reflexivity.
Qed.

Lemma writeConfig_run (conf : Config) (path : string) (w : World) :
  writeConfig conf path w =
  (match snd (WriteConfig (w_fs w) conf path) with
   | Some e => Err e
   | None => Ok tt
   end, after_write conf path w).
Proof.
  unfold writeConfig, after_write.
  destruct (WriteConfig (w_fs w) conf path) as [fs' [e|]]; reflexivity.
Qed.

Lemma no_flags_test (f : Flags) :
  (len (ips f) =? 0) && (self f =? EmptyString)%string = true
  <-> ips f = [] /\ self f = EmptyString.
Proof.
  rewrite andb_true_iff, Z.eqb_eq, String.eqb_eq. unfold len.
  split; intros [Hl Hs]; split; auto.
  - destruct (ips f); [reflexivity|simpl in Hl; lia].
  - now rewrite Hl.
Qed.

Lemma self_test (f : Flags) :
  negb (self f =? EmptyString)%string = true <-> self f <> EmptyString.
Proof.
  rewrite negb_true_iff. split.
  - intros E Hs. rewrite Hs, String.eqb_refl in E. discriminate.
  - intros N. apply String.eqb_neq, N.
Qed.

Lemma RunE_no_flags (f : Flags) (w : World) :
  ips f = [] -> self f = EmptyString ->
  bootstrap_RunE f w = (Err err_no_flags, w).
Proof.
  intros Hi Hs. unfold bootstrap_RunE.
  now rewrite (proj2 (no_flags_test f) (conj Hi Hs)).
Qed.

(** With one of the two flags passed, the run starts with
    [ReadOrGenerate] and goes on from the world it leaves. *)
Lemma RunE_some_flag (f : Flags) (w : World) :
  ~ (ips f = [] /\ self f = EmptyString) ->
  bootstrap_RunE f w =
  match snd (ReadOrGenerate (w_fs w) (configPath f)) with
  | inl e => (Err e, after_read (configPath f) w)
  | inr conf =>
      match parseIPs (ips f) with
      | Err e => (Err e, after_read (configPath f) w)
      | Panic p => (Panic p, after_read (configPath f) w)
      | Ok parsed =>
          let seeds := make_seeds (Port (RPCServer (Redpanda DefaultConfig))) parsed in
          if negb (self f =? EmptyString)%string
          then match ParseIP (self f) with
               | None => (Err (self f ++ " is not a valid IP.")%string,
                          after_read (configPath f) w)
               | Some ip =>
                   writeConfig (configure conf (id f) ip seeds) (configPath f)
                     (after_read (configPath f) w)
               end
          else match ownIP (after_read (configPath f) w) with
               | (Ok ip, w') =>
                   writeConfig (configure conf (id f) ip seeds) (configPath f) w'
               | (Err e, w') => (Err e, w')
               | (Panic p, w') => (Panic p, w')
               end
      end
  end.
Proof.
  intros Hflags. unfold bootstrap_RunE.
  destruct ((len (ips f) =? 0) && (self f =? EmptyString)%string) eqn:T.
  - now apply no_flags_test in T.
  - unfold bind at 1. rewrite readOrGenerate_run.
    destruct (snd (ReadOrGenerate (w_fs w) (configPath f))) as [e|conf]; [reflexivity|].
    unfold bind at 1, lift.
    destruct (parseIPs (ips f)) as [parsed|e|p]; try reflexivity.
    unfold bind, ret, fail.
    destruct (negb (self f =? EmptyString)%string).
    + destruct (ParseIP (self f)); reflexivity.
    + reflexivity.
Qed.

(** Without [--self] the run ends where [ownIP] ends: it never has an
    address to go on with. *)
Lemma RunE_auto (f : Flags) (w : World) (conf : Config) (parsed : list IP) :
  ips f <> [] -> self f = EmptyString ->
  snd (ReadOrGenerate (w_fs w) (configPath f)) = inr conf ->
  parseIPs (ips f) = Ok parsed ->
  is_Ok (fst (bootstrap_RunE f w)) = false /\
  snd (bootstrap_RunE f w) = record EvInterfaceAddrs (after_read (configPath f) w) /\
  (forall e, fst (ownIP (after_read (configPath f) w)) = Err e ->
             fst (bootstrap_RunE f w) = Err e) /\
  (forall p, fst (ownIP (after_read (configPath f) w)) = Panic p ->
             fst (bootstrap_RunE f w) = Panic p).
Proof.
  intros Hi Hs Hr Hp.
  rewrite RunE_some_flag by (intros [Hi' _]; contradiction).
  rewrite Hr, Hp. cbv zeta. rewrite Hs. cbn [String.eqb negb].
  pose proof (ownIP_never_Ok (after_read (configPath f) w)) as Hok.
  pose proof (ownIP_world (after_read (configPath f) w)) as Hw.
  destruct (ownIP (after_read (configPath f) w)) as [[ip|e|p] w']; simpl in *.
  - discriminate.
  - repeat split; auto.
    + intros e' [= ->]; reflexivity.
    + intros p [=].
  - repeat split; auto.
    + intros e' [=].
    + intros p' [= ->]; reflexivity.
Qed.

Lemma writes_app (t u : list Event) : writes (t ++ u) = writes t ++ writes u.
Proof. unfold writes. apply flat_map_app. Qed.

Lemma writes_after_read (path : string) (w : World) :
  writes (w_trace (after_read path w)) = writes (w_trace w).
Proof. simpl. rewrite writes_app. simpl. now rewrite app_nil_r. Qed.

Lemma writes_record_addrs (w : World) :
  writes (w_trace (record EvInterfaceAddrs w)) = writes (w_trace w).
Proof. simpl. rewrite writes_app. simpl. now rewrite app_nil_r. Qed.

(** The answer of [ownIP] depends on the world through the interface
    addresses alone. *)
Lemma ownIP_outcome_ifaddrs (w1 w2 : World) :
  w_ifaddrs w1 = w_ifaddrs w2 -> fst (ownIP w1) = fst (ownIP w2).
Proof.
  intros E. destruct (w_ifaddrs w2) as [e|addrs] eqn:E2.
  - now rewrite (ownIP_addrs_error _ _ E), (ownIP_addrs_error _ _ E2).
  - now rewrite (ownIP_cases _ _ E), (ownIP_cases _ _ E2).
Qed.

(** A run of [RunE] either reaches [WriteConfig], which takes a valid
    [--self], or ends before it with nothing written. *)
Lemma RunE_dichotomy (f : Flags) (w : World) :
  let path := configPath f in
  let port := Port (RPCServer (Redpanda DefaultConfig)) in
  (exists conf parsed ip,
      snd (ReadOrGenerate (w_fs w) path) = inr conf /\
      parseIPs (ips f) = Ok parsed /\
      self f <> EmptyString /\ ParseIP (self f) = Some ip /\
      bootstrap_RunE f w =
      writeConfig (configure conf (id f) ip (make_seeds port parsed)) path
        (after_read path w))
  \/
  (writes (w_trace (snd (bootstrap_RunE f w))) = writes (w_trace w) /\
   (w_fs (snd (bootstrap_RunE f w)) = w_fs w \/
    w_fs (snd (bootstrap_RunE f w)) = fst (ReadOrGenerate (w_fs w) path)) /\
   (is_Err (fst (bootstrap_RunE f w)) = true \/
    (self f = EmptyString /\
     is_Panic (fst (ownIP w)) = true /\
     is_Panic (fst (bootstrap_RunE f w)) = true))).
Proof.
  intros path port.
  destruct (list_eq_dec string_dec (ips f) []) as [Hi|Hi];
    [destruct (string_dec (self f) EmptyString) as [Hs|Hs]|].
  - right. rewrite (RunE_no_flags f w Hi Hs). simpl. auto.
  - assert (~ (ips f = [] /\ self f = EmptyString)) as Hflags by tauto.
    rewrite (RunE_some_flag f w Hflags). fold path port.
    destruct (snd (ReadOrGenerate (w_fs w) path)) as [e|conf] eqn:Hr.
    { right. cbn [fst snd]. rewrite writes_after_read. simpl. auto. }
    pose proof (parseIPs_never_panics (ips f)) as Hnp.
    destruct (parseIPs (ips f)) as [parsed|e|p] eqn:Hp; [| |discriminate].
    2:{ right. cbn [fst snd]. rewrite writes_after_read. simpl. auto. }
    cbv zeta. rewrite (proj2 (self_test f) Hs).
    destruct (ParseIP (self f)) as [ip|] eqn:Hself.
    + left. exists conf, parsed, ip. auto.
    + right. cbn [fst snd]. rewrite writes_after_read. simpl. auto.
  - assert (~ (ips f = [] /\ self f = EmptyString)) as Hflags by tauto.
    rewrite (RunE_some_flag f w Hflags). fold path port.
    destruct (snd (ReadOrGenerate (w_fs w) path)) as [e|conf] eqn:Hr.
    { right. cbn [fst snd]. rewrite writes_after_read. simpl. auto. }
    pose proof (parseIPs_never_panics (ips f)) as Hnp.
    destruct (parseIPs (ips f)) as [parsed|e|p] eqn:Hp; [| |discriminate].
    2:{ right. cbn [fst snd]. rewrite writes_after_read. simpl. auto. }
    cbv zeta.
    destruct (string_dec (self f) EmptyString) as [Hs|Hs].
    + right. rewrite Hs. cbn [String.eqb negb].
      pose proof (ownIP_never_Ok (after_read path w)) as Hok.
      pose proof (ownIP_world (after_read path w)) as Hw.
      pose proof (ownIP_outcome_ifaddrs (after_read path w) w eq_refl) as Hsame.
      destruct (ownIP (after_read path w)) as [[ip|e|p] w']; simpl in *;
        [discriminate| |]; subst w'; cbn [fst snd];
        rewrite writes_record_addrs, writes_after_read.
      * simpl. auto.
      * simpl. rewrite <- Hsame. simpl. auto 6.
    + rewrite (proj2 (self_test f) Hs).
      destruct (ParseIP (self f)) as [ip|] eqn:Hself.
      * left. exists conf, parsed, ip. auto.
      * right. cbn [fst snd]. rewrite writes_after_read. simpl. auto.
Qed.

Lemma bootstrap_with_id (c : CmdLine) (n : Z) (w : World) :
  arg_id c = Some n -> bootstrap c w = bootstrap_RunE (bind_flags c) w.
Proof. intros E. unfold bootstrap. now rewrite E. Qed.

Lemma bootstrap_without_id (c : CmdLine) (w : World) :
  arg_id c = None -> bootstrap c w = (Err (err_required "id"), w).
Proof. intros E. unfold bootstrap. now rewrite E. Qed.

(** ** The node address derived from the interfaces *)

(** C1, at the input that breaks it.  On a machine with exactly one
    non-loopback address [ownIP] does not answer that address: it answers
    the error written for the machine that has none, and a [bootstrap]
    without [--self] ends with that error and writes nothing.  The test
    [len(filtered) == 1] stands where [len(filtered) == 0] is meant. *)
Theorem ownIP_single_address_refused
  (c : CmdLine) (w : World) (addrs : list Addr) (ip : IP) (n : Z)
  (conf : Config) (parsed : list IP) :
  w_ifaddrs w = inr addrs ->
  non_loopback addrs = [ip] ->
  arg_id c = Some n ->
  self (bind_flags c) = EmptyString ->
  ips (bind_flags c) <> [] ->
  snd (ReadOrGenerate (w_fs w) (configPath (bind_flags c))) = inr conf ->
  parseIPs (ips (bind_flags c)) = Ok parsed ->
  fst (ownIP w) = Err err_none /\
  fst (bootstrap c w) = Err err_none /\
  writes (w_trace (snd (bootstrap c w))) = writes (w_trace w).
Proof.
  intros Haddrs Hone Hid Hself Hips Hread Hparse.
  assert (fst (ownIP w) = Err err_none) as Hown.
  { rewrite (ownIP_cases w addrs Haddrs), Hone. reflexivity. }
  split; [exact Hown|].
  rewrite (bootstrap_with_id c n w Hid).
  destruct (RunE_auto (bind_flags c) w conf parsed Hips Hself Hread Hparse)
    as (_ & Hw & Herr & _).
  split.
  - apply Herr. rewrite <- Hown. now apply ownIP_outcome_ifaddrs.
  - rewrite Hw, writes_record_addrs. apply writes_after_read.
Qed.

(** C2, at the inputs that break it.  [filtered[0]] is evaluated exactly
    when [filtered] is empty: on a machine without a non-loopback address
    [ownIP] ends in the index panic, and it panics on no other machine. *)
Theorem ownIP_index_panics_iff_empty (w : World) (addrs : list Addr) :
  w_ifaddrs w = inr addrs ->
  (non_loopback addrs = [] -> fst (ownIP w) = Panic (IndexOutOfRange 0 0)) /\
  (is_Panic (fst (ownIP w)) = true <-> ownIP_filtered addrs = []).
Proof.
  intros Haddrs. rewrite (ownIP_cases w addrs Haddrs), ownIP_filtered_spec.
  destruct (non_loopback addrs) as [|ip [|ip' rest]]; simpl.
  - tauto.
  - repeat split; discriminate.
  - repeat split; discriminate.
Qed.

(** ** Errors of configuration *)


(** ** The run that writes *)

Lemma RunE_with_self (f : Flags) (w : World) (conf : Config)
  (parsed : list IP) (ip : IP) :
  snd (ReadOrGenerate (w_fs w) (configPath f)) = inr conf ->
  parseIPs (ips f) = Ok parsed ->
  self f <> EmptyString -> ParseIP (self f) = Some ip ->
  bootstrap_RunE f w =
  writeConfig
    (configure conf (id f) ip
       (make_seeds (Port (RPCServer (Redpanda DefaultConfig))) parsed))
    (configPath f) (after_read (configPath f) w).
Proof.
  intros Hread Hparse Hs Hself.
  rewrite RunE_some_flag by tauto.
  rewrite Hread, Hparse. cbv zeta.
  now rewrite (proj2 (self_test f) Hs), Hself.
Qed.

Lemma parseIPs_total (l : list string) :
  Forall (fun s => ParseIP s <> None) l ->
  exists parsed, parseIPs l = Ok parsed /\ map ParseIP l = map Some parsed.
Proof.
  intros Hall. pose proof (parseIPs_loop_spec l []) as S. unfold parseIPs.
  destruct (parseIPs_loop [] l) as [parsed|e|p].
  - destruct S as (parsed' & -> & Hmap). now exists parsed'.
  - destruct S as (i & Hin & Hi & _). exfalso.
    rewrite Forall_forall in Hall. now apply (Hall i Hin).
  - contradiction.
Qed.

Lemma writes_after_write (conf : Config) (path : string) (w : World) :
  writes (w_trace (after_write conf path w)) = writes (w_trace w) ++ [(conf, path)].
Proof. simpl. now rewrite writes_app. Qed.

(** C6.  With [--ips] holding n elements that all parse, [bootstrap] hands
    to [WriteConfig] a configuration whose seed servers are n, in the order
    of [--ips]: the seed at position i has Id i, and for Host the string
    form of the i-th address with the default RPC port. *)
Theorem bootstrap_seeds_by_position
  (c : CmdLine) (w : World) (n : Z) (conf : Config) (ip : IP) :
  let f := bind_flags c in
  let path := configPath f in
  let port := Port (RPCServer (Redpanda DefaultConfig)) in
  arg_id c = Some n ->
  snd (ReadOrGenerate (w_fs w) path) = inr conf ->
  Forall (fun s => ParseIP s <> None) (ips f) ->
  self f <> EmptyString -> ParseIP (self f) = Some ip ->
  exists conf',
    w_trace (snd (bootstrap c w)) =
      w_trace w ++ [EvReadOrGenerate path; EvWriteConfig conf' path] /\
    length (SeedServers (Redpanda conf')) = length (ips f) /\
    forall (i : nat) (s : string),
      nth_error (ips f) i = Some s ->
      exists ip_i,
        ParseIP s = Some ip_i /\
        nth_error (SeedServers (Redpanda conf')) i =
        Some {| seed_Id := Z.of_nat i;
                Host := {| Address := IP_String ip_i; Port := port |} |}.
Proof.
  intros f path port Hid Hread Hall Hs Hself.
  destruct (parseIPs_total (ips f) Hall) as (parsed & Hparse & Hmap).
  rewrite (bootstrap_with_id c n w Hid). fold f.
  rewrite (RunE_with_self f w conf parsed ip Hread Hparse Hs Hself).
  fold path port. rewrite writeConfig_run. cbn [snd].
  exists (configure conf (id f) ip (make_seeds port parsed)).
  split; [|split].
  - simpl. now rewrite <- app_assoc.
  - simpl. rewrite make_seeds_length.
    rewrite <- (length_map Some parsed), <- Hmap. apply length_map.
  - intros i s Hi. simpl.
    assert (nth_error (map Some parsed) i = Some (ParseIP s)) as Hnth.
    { rewrite <- Hmap, nth_error_map, Hi. reflexivity. }
    rewrite nth_error_map in Hnth.
    destruct (nth_error parsed i) as [ip_i|] eqn:Hpi; [|discriminate].
    injection Hnth as Hnth. exists ip_i. split; [now symmetry|].
    rewrite make_seeds_nth, Hpi. reflexivity.
Qed.

(** A run that ends well went through [WriteConfig] once, with the
    configuration read, reconfigured for a valid [--self]. *)
Lemma bootstrap_Ok_inv (c : CmdLine) (w w' : World) :
  let f := bind_flags c in
  let path := configPath f in
  let port := Port (RPCServer (Redpanda DefaultConfig)) in
  bootstrap c w = (Ok tt, w') ->
  exists n conf parsed ip,
    arg_id c = Some n /\
    snd (ReadOrGenerate (w_fs w) path) = inr conf /\
    parseIPs (ips f) = Ok parsed /\
    self f <> EmptyString /\ ParseIP (self f) = Some ip /\
    w' = after_write (configure conf n ip (make_seeds port parsed)) path
           (after_read path w).
Proof.
  intros f path port Hrun.
  destruct (arg_id c) as [n|] eqn:Hid.
  2:{ rewrite (bootstrap_without_id c w Hid) in Hrun. discriminate. }
  rewrite (bootstrap_with_id c n w Hid) in Hrun. fold f in Hrun.
  destruct (RunE_dichotomy f w)
    as [(conf & parsed & ip & Hread & Hparse & Hs & Hself & Heq)
       |(_ & _ & [Herr|(_ & _ & Hp)])].
  - exists n, conf, parsed, ip.
    repeat (split; [assumption || reflexivity|]).
    assert (id f = n) as Hn by (unfold f, bind_flags; cbn; now rewrite Hid).
    rewrite Heq, writeConfig_run, Hn in Hrun.
    injection Hrun as _ <-. reflexivity.
  - rewrite Hrun in Herr. discriminate.
  - rewrite Hrun in Hp. discriminate.
Qed.

(** C7, as the code has it.  A command line without [--id] is refused and
    nothing is touched; a run that ends well has written, once, a
    configuration whose Id is the integer passed as [--id], whatever its
    sign. *)
Theorem bootstrap_id_required_and_stored (c : CmdLine) (w : World) :
  (arg_id c = None -> bootstrap c w = (Err (err_required "id"), w)) /\
  (forall w',
      bootstrap c w = (Ok tt, w') ->
      exists n conf',
        arg_id c = Some n /\
        writes (w_trace w') =
          writes (w_trace w) ++ [(conf', configPath (bind_flags c))] /\
        Id (Redpanda conf') = n).
Proof.
  split.
  - apply bootstrap_without_id.
  - intros w' Hrun.
    destruct (bootstrap_Ok_inv c w w' Hrun)
      as (n & conf & parsed & ip & Hid & _ & _ & _ & _ & ->).
    eexists n, _. split; [exact Hid|]. split.
    + rewrite writes_after_write, writes_after_read. reflexivity.
    + reflexivity.
Qed.

(** ** The node address passed as [--self] *)

(** C8.  With [--self] passed, [bootstrap] does not call
    [net.InterfaceAddrs], so [ownIP] is not run.  If [--self] parses, the
    configuration handed to [WriteConfig] has the string form of that
    address as its RPC, Kafka API and Admin API address.  If it does not
    parse, [bootstrap] returns an error and writes nothing, and the error
    is the validation error as soon as the configuration was read and
    [--ips] parsed. *)
Theorem bootstrap_explicit_self (c : CmdLine) (w : World) (n : Z) :
  let f := bind_flags c in
  let path := configPath f in
  arg_id c = Some n ->
  self f <> EmptyString ->
  (exists t, w_trace (snd (bootstrap c w)) = w_trace w ++ t /\
             asked_addrs t = false) /\
  (forall ip conf parsed,
      ParseIP (self f) = Some ip ->
      snd (ReadOrGenerate (w_fs w) path) = inr conf ->
      parseIPs (ips f) = Ok parsed ->
      exists conf',
        writes (w_trace (snd (bootstrap c w))) = writes (w_trace w) ++ [(conf', path)] /\
        Address (RPCServer (Redpanda conf')) = IP_String ip /\
        Address (KafkaApi (Redpanda conf')) = IP_String ip /\
        Address (AdminApi (Redpanda conf')) = IP_String ip) /\
  (ParseIP (self f) = None ->
   is_Err (fst (bootstrap c w)) = true /\
   writes (w_trace (snd (bootstrap c w))) = writes (w_trace w) /\
   forall conf parsed,
     snd (ReadOrGenerate (w_fs w) path) = inr conf ->
     parseIPs (ips f) = Ok parsed ->
     fst (bootstrap c w) = Err (self f ++ " is not a valid IP.")%string).
Proof.
  intros f path Hid Hs.
  rewrite (bootstrap_with_id c n w Hid). fold f.
  assert (~ (ips f = [] /\ self f = EmptyString)) as Hflags by tauto.
  rewrite (RunE_some_flag f w Hflags). fold path.
  rewrite (proj2 (self_test f) Hs). cbv zeta.
  pose proof (parseIPs_never_panics (ips f)) as Hnp.
  destruct (snd (ReadOrGenerate (w_fs w) path)) as [e|conf].
  { cbn [fst snd]. rewrite writes_after_read. repeat split.
    - exists [EvReadOrGenerate path]. split; reflexivity.
    - intros ip conf parsed _ [=].
    - intros conf parsed [=]. }
  destruct (parseIPs (ips f)) as [parsed|e|p]; [| |discriminate].
  2:{ cbn [fst snd]. rewrite writes_after_read. repeat split.
      - exists [EvReadOrGenerate path]. split; reflexivity.
      - intros ip conf' parsed _ _ [=].
      - intros conf' parsed _ [=]. }
  destruct (ParseIP (self f)) as [ip|].
  - rewrite writeConfig_run. cbn [fst snd].
    rewrite writes_after_write, writes_after_read. repeat split.
    + eexists [EvReadOrGenerate path; EvWriteConfig _ path].
      split; [|reflexivity]. simpl. now rewrite <- app_assoc.
    + intros ip' conf' parsed' [= <-] [= <-] [= <-].
      eexists. split; [reflexivity|]. repeat split.
    + discriminate.
    + discriminate.
    + discriminate.
  - cbn [fst snd]. rewrite writes_after_read. repeat split.
    + exists [EvReadOrGenerate path]. split; reflexivity.
    + discriminate.
Qed.

(** ** A root node *)

(** C9.  Without [--ips] and with a [--self] that parses, [bootstrap] hands
    to [WriteConfig] the configuration read, reconfigured with an empty
    list of seed servers, and ends well when that call does. *)
Theorem bootstrap_root_node
  (c : CmdLine) (w : World) (n : Z) (ip : IP) (conf : Config) :
  let f := bind_flags c in
  let path := configPath f in
  let conf' := configure conf n ip [] in
  arg_ips c = None ->
  arg_id c = Some n ->
  self f <> EmptyString ->
  ParseIP (self f) = Some ip ->
  snd (ReadOrGenerate (w_fs w) path) = inr conf ->
  snd (WriteConfig (fst (ReadOrGenerate (w_fs w) path)) conf' path) = None ->
  fst (bootstrap c w) = Ok tt /\
  writes (w_trace (snd (bootstrap c w))) = writes (w_trace w) ++ [(conf', path)] /\
  SeedServers (Redpanda conf') = [] /\
  w_fs (snd (bootstrap c w)) =
    fst (WriteConfig (fst (ReadOrGenerate (w_fs w) path)) conf' path).
Proof.
  intros f path conf' Hips Hid Hs Hself Hread Hwrite.
  assert (ips f = []) as Hnone by (unfold f, bind_flags; now rewrite Hips).
  assert (id f = n) as Hn by (unfold f, bind_flags; now rewrite Hid).
  assert (parseIPs (ips f) = Ok []) as Hparse by (now rewrite Hnone).
  rewrite (bootstrap_with_id c n w Hid). fold f.
  rewrite (RunE_with_self f w conf [] ip Hread Hparse Hs Hself).
  rewrite Hn. change (make_seeds _ []) with (@nil SeedServer).
  fold path conf'. rewrite writeConfig_run. cbn [fst snd].
  rewrite writes_after_write, writes_after_read.
  change (w_fs (after_read path w)) with (fst (ReadOrGenerate (w_fs w) path)).
  rewrite Hwrite. repeat split.
Qed.

(** ** What a run changes *)

(** C10.  A run that ends well has handed to [WriteConfig], once, the
    configuration read or generated with five fields assigned: the Id, the
    three addresses, all three the string form of the node address chosen,
    and the seed servers.  The path of the file, the three ports and the
    rest of both structs are as read. *)
Theorem bootstrap_frame (c : CmdLine) (w w' : World) :
  let f := bind_flags c in
  let path := configPath f in
  bootstrap c w = (Ok tt, w') ->
  exists conf conf' ip,
    snd (ReadOrGenerate (w_fs w) path) = inr conf /\
    ((self f <> EmptyString /\ ParseIP (self f) = Some ip) \/
     (self f = EmptyString /\ fst (ownIP (after_read path w)) = Ok ip)) /\
    writes (w_trace w') = writes (w_trace w) ++ [(conf', path)] /\
    ConfigFile conf' = ConfigFile conf /\
    config_rest conf' = config_rest conf /\
    redpanda_rest (Redpanda conf') = redpanda_rest (Redpanda conf) /\
    Port (RPCServer (Redpanda conf')) = Port (RPCServer (Redpanda conf)) /\
    Port (KafkaApi (Redpanda conf')) = Port (KafkaApi (Redpanda conf)) /\
    Port (AdminApi (Redpanda conf')) = Port (AdminApi (Redpanda conf)) /\
    Address (RPCServer (Redpanda conf')) = IP_String ip /\
    Address (KafkaApi (Redpanda conf')) = IP_String ip /\
    Address (AdminApi (Redpanda conf')) = IP_String ip.
Proof.
  intros f path Hrun.
  destruct (bootstrap_Ok_inv c w w' Hrun)
    as (n & conf & parsed & ip & Hid & Hread & Hparse & Hs & Hself & ->).
  eexists conf, _, ip. split; [exact Hread|]. split; [left; now split|].
  split.
  - rewrite writes_after_write, writes_after_read. reflexivity.
  - repeat split.
Qed.

End CommandFacts.

(* ================================================================== *)
(** * Facts about the probe *)

Section ProbeFacts.
Variable metrics_name : string -> string.

Lemma setup_metrics_groups (p : probe) (n : ntp) :
  _metrics (setup_metrics metrics_name p n) =
  _metrics p ++ [(metrics_name "raft", raft_metrics (create_metric_labels n))].
Proof. reflexivity. Qed.

Lemma setup_metrics_counters (p : probe) (n : ntp) :
  probe_counters (setup_metrics metrics_name p n) = probe_counters p.
Proof. reflexivity. Qed.

Lemma raft_metrics_names (labels : list label_instance) :
  map metric_name (raft_metrics labels) =
  [ "received_vote_requests"; "received_append_requests"; "sent_vote_requests";
    "replicate_ack_all_requests"; "replicate_ack_leader_requests";
    "replicate_ack_none_requests"; "done_replicate_requests";
    "log_flushes"; "log_truncations"; "leadership_changes";
    "replicate_request_errors"; "heartbeat_requests_errors";
    "recovery_requests_errors" ]%string.
Proof. reflexivity. Qed.

Lemma raft_metrics_labels (labels : list label_instance) :
  Forall (fun d => metric_labels d = labels) (raft_metrics labels).
Proof. unfold raft_metrics. repeat constructor. Qed.

Lemma contract_names_NoDup : NoDup (map contract_name contract_counters).
Proof.
  simpl. repeat (constructor; [simpl; intuition discriminate|]). constructor.
Qed.

(** C3, as the code has it.  Of the four counters that the direction and
    the message would give, the probe registers three: vote requests
    received, vote requests sent and append requests received.  No counter
    of the group counts append requests sent. *)
Theorem setup_metrics_traffic_counters
  (cs : counters) (n : ntp) (d : direction) (m : message) :
  existsb (counts_traffic d m)
    (registered (setup_metrics metrics_name
                   {| probe_counters := cs; _metrics := [] |} n)) =
  match d, m with
  | sent, append => false
  | _, _ => true
  end.
Proof. destruct d, m; reflexivity. Qed.

(** C4.  For every group identity [setup_metrics] adds one group, named
    after [raft], whose counters are those of the contract, each once and
    no other, and every one of them carries the labels namespace, topic and
    partition of that identity, these three and in this order. *)
Theorem setup_metrics_registers_contract (p : probe) (n : ntp) :
  exists defs,
    _metrics (setup_metrics metrics_name p n) =
      _metrics p ++ [(metrics_name "raft", defs)] /\
    Permutation (map metric_name defs) (map contract_name contract_counters) /\
    NoDup (map metric_name defs) /\
    length defs = length contract_counters /\
    Forall (fun d => map label_pair (metric_labels d) = contract_labels n) defs.
Proof.
  exists (raft_metrics (create_metric_labels n)).
  split; [apply setup_metrics_groups|].
  rewrite raft_metrics_names.
  assert (Permutation
            (map metric_name (raft_metrics []))
            (map contract_name contract_counters)) as Hperm.
  { simpl. apply perm_skip. apply perm_swap. }
  rewrite raft_metrics_names in Hperm.
  split; [exact Hperm|]. split.
  - apply (Permutation_NoDup (Permutation_sym Hperm)), contract_names_NoDup.
  - split; [reflexivity|].
    eapply Forall_impl; [|apply raft_metrics_labels].
    intros d ->. reflexivity.
Qed.

End ProbeFacts.

(* ================================================================== *)
(** * More about [config.go] *)

Section CommandMore.
Context `{Net} `{ConfigPkg}.

(** ** [parseIPs] *)

Lemma parseIPs_loop_first_invalid (pre post : list string) (i : string) :
  Forall (fun s => ParseIP s <> None) pre ->
  ParseIP i = None ->
  forall acc,
    parseIPs_loop acc (pre ++ i :: post) = Err (i ++ " is not a valid IP.")%string.
Proof.
  intros Hpre Hi. induction Hpre as [|s pre Hs _ IH]; intros acc; simpl.
  - now rewrite Hi.
  - destruct (ParseIP s) as [p|]; [apply IH|contradiction].
Qed.

(** X1.  [parseIPs] answers the error of the first element that is not an
    IP, whatever follows it. *)
Theorem parseIPs_reports_first_invalid (pre post : list string) (i : string) :
  Forall (fun s => ParseIP s <> None) pre ->
  ParseIP i = None ->
  parseIPs (pre ++ i :: post) = Err (i ++ " is not a valid IP.")%string.
Proof.
  intros Hpre Hi. apply (parseIPs_loop_first_invalid pre post i Hpre Hi).
Qed.

(** X2.  [parseIPs] answers a list exactly when every element parses, and
    the list is then the parsed elements, as many and in the order given. *)
Theorem parseIPs_succeeds_iff (l : list string) (parsed : list IP) :
  parseIPs l = Ok parsed <-> map ParseIP l = map Some parsed.
Proof.
  split; [apply parseIPs_ok|apply parseIPs_all_valid].
Qed.

(** ** [ownIP] *)

(** X3.  The loop of [ownIP] keeps an address exactly when it comes from an
    [IPNet] of the list and is not a loopback address. *)
Theorem ownIP_filtered_membership (addrs : list Addr) (ip : IP) :
  In ip (ownIP_filtered addrs) <->
  exists mask, In (IPNet ip mask) addrs /\ IsLoopback ip = false.
Proof.
  rewrite ownIP_filtered_spec. unfold non_loopback. rewrite in_flat_map. split.
  - intros ([ip' mask|network text] & Hin & Hip); [|contradiction].
    destruct (IsLoopback ip') eqn:Hlo; [contradiction|].
    destruct Hip as [->|[]]. now exists mask.
  - intros (mask & Hin & Hlo). exists (IPNet ip mask). split; [exact Hin|].
    rewrite Hlo. now left.
Qed.

(** X4.  On a machine with two or more non-loopback addresses [ownIP]
    answers the error that asks for [--self], and a [bootstrap] without
    [--self] ends with that error and writes nothing. *)
Theorem bootstrap_multiple_addresses
  (c : CmdLine) (w : World) (addrs : list Addr) (ip1 ip2 : IP) (rest : list IP)
  (n : Z) (conf : Config) (parsed : list IP) :
  w_ifaddrs w = inr addrs ->
  non_loopback addrs = ip1 :: ip2 :: rest ->
  arg_id c = Some n ->
  self (bind_flags c) = EmptyString ->
  ips (bind_flags c) <> [] ->
  snd (ReadOrGenerate (w_fs w) (configPath (bind_flags c))) = inr conf ->
  parseIPs (ips (bind_flags c)) = Ok parsed ->
  fst (ownIP w) = Err err_multiple /\
  fst (bootstrap c w) = Err err_multiple /\
  writes (w_trace (snd (bootstrap c w))) = writes (w_trace w).
Proof.
  intros Haddrs Hmany Hid Hself Hips Hread Hparse.
  assert (fst (ownIP w) = Err err_multiple) as Hown.
  { rewrite (ownIP_cases w addrs Haddrs), Hmany. reflexivity. }
  split; [exact Hown|].
  rewrite (bootstrap_with_id c n w Hid).
  destruct (RunE_auto (bind_flags c) w conf parsed Hips Hself Hread Hparse)
    as (_ & Hw & Herr & _).
  split.
  - apply Herr. rewrite <- Hown. now apply ownIP_outcome_ifaddrs.
  - rewrite Hw, writes_record_addrs. apply writes_after_read.
Qed.

(** ** [bootstrap] *)

(** X5.  A [bootstrap] without [--self] never ends well and never calls
    [WriteConfig], on any machine: [ownIP] has no address to give. *)
Theorem bootstrap_without_self_never_writes (c : CmdLine) (w : World) :
  self (bind_flags c) = EmptyString ->
  is_Ok (fst (bootstrap c w)) = false /\
  writes (w_trace (snd (bootstrap c w))) = writes (w_trace w).
Proof.
  intros Hself.
  destruct (arg_id c) as [n|] eqn:Hid.
  2:{ rewrite (bootstrap_without_id c w Hid). split; reflexivity. }
  rewrite (bootstrap_with_id c n w Hid).
  destruct (RunE_dichotomy (bind_flags c) w)
    as [(conf & parsed & ip & _ & _ & Hs & _)
       |(Hwr & _ & [Herr|(_ & _ & Hp)])].
  - contradiction.
  - split; [|exact Hwr].
    destruct (fst (bootstrap_RunE (bind_flags c) w)); [discriminate|reflexivity..].
  - split; [|exact Hwr].
    destruct (fst (bootstrap_RunE (bind_flags c) w)); [discriminate|reflexivity..].
Qed.

(** X6.  Once the configuration is read, the first element of [--ips] that
    is not an IP ends the run with its error, whatever [--self] holds: the
    world is the one [ReadOrGenerate] left, so neither [--self] nor the
    interfaces were looked at. *)
Theorem bootstrap_invalid_ip_reported_first
  (c : CmdLine) (w : World) (n : Z) (conf : Config)
  (pre post : list string) (i : string) :
  let f := bind_flags c in
  arg_id c = Some n ->
  snd (ReadOrGenerate (w_fs w) (configPath f)) = inr conf ->
  ips f = pre ++ i :: post ->
  Forall (fun s => ParseIP s <> None) pre ->
  ParseIP i = None ->
  bootstrap c w =
  (Err (i ++ " is not a valid IP.")%string, after_read (configPath f) w).
Proof.
  intros f Hid Hread Hips Hpre Hi.
  rewrite (bootstrap_with_id c n w Hid). fold f.
  assert (~ (ips f = [] /\ self f = EmptyString)) as Hflags.
  { intros [E _]. rewrite Hips in E. now destruct pre. }
  rewrite (RunE_some_flag f w Hflags), Hread, Hips.
  now rewrite (parseIPs_loop_first_invalid pre post i Hpre Hi []
               : parseIPs (pre ++ i :: post) = _).
Qed.

(** X7.  Without [--id], or with neither [--ips] nor [--self], [bootstrap]
    returns an error before any call that reaches outside: the file system
    and the trace are as they were. *)
Theorem bootstrap_refused_before_any_call (c : CmdLine) (w : World) :
  arg_id c = None \/
  (ips (bind_flags c) = [] /\ self (bind_flags c) = EmptyString) ->
  is_Err (fst (bootstrap c w)) = true /\ snd (bootstrap c w) = w.
Proof.
  intros Hcause.
  destruct (arg_id c) as [n|] eqn:Hid.
  - destruct Hcause as [[=]|[Hi Hs]].
    rewrite (bootstrap_with_id c n w Hid), (RunE_no_flags _ w Hi Hs).
    split; reflexivity.
  - rewrite (bootstrap_without_id c w Hid). split; reflexivity.
Qed.

(** The run with valid flags, in one equation. *)
Lemma bootstrap_valid_run
  (c : CmdLine) (w : World) (n : Z) (conf : Config) (parsed : list IP) (ip : IP) :
  let f := bind_flags c in
  let path := configPath f in
  let conf' :=
    configure conf n ip (make_seeds (Port (RPCServer (Redpanda DefaultConfig))) parsed) in
  arg_id c = Some n ->
  snd (ReadOrGenerate (w_fs w) path) = inr conf ->
  parseIPs (ips f) = Ok parsed ->
  self f <> EmptyString -> ParseIP (self f) = Some ip ->
  bootstrap c w =
  (match snd (WriteConfig (fst (ReadOrGenerate (w_fs w) path)) conf' path) with
   | Some e => Err e
   | None => Ok tt
   end, after_write conf' path (after_read path w)).
Proof.
  intros f path conf' Hid Hread Hparse Hs Hself.
  assert (id f = n) as Hn by (unfold f, bind_flags; cbn; now rewrite Hid).
  rewrite (bootstrap_with_id c n w Hid). fold f.
  rewrite (RunE_with_self f w conf parsed ip Hread Hparse Hs Hself), Hn.
  fold path conf'. now rewrite writeConfig_run.
Qed.

(** X8.  With the configuration read, [--ips] parsed and a valid [--self],
    the answer of [bootstrap] is the answer of [WriteConfig]: an error of
    the write is returned as it is, and the file system is the one the
    write left. *)
Theorem bootstrap_returns_write_result
  (c : CmdLine) (w : World) (n : Z) (conf : Config) (parsed : list IP) (ip : IP) :
  let f := bind_flags c in
  let path := configPath f in
  let conf' :=
    configure conf n ip (make_seeds (Port (RPCServer (Redpanda DefaultConfig))) parsed) in
  arg_id c = Some n ->
  snd (ReadOrGenerate (w_fs w) path) = inr conf ->
  parseIPs (ips f) = Ok parsed ->
  self f <> EmptyString -> ParseIP (self f) = Some ip ->
  fst (bootstrap c w) =
    match snd (WriteConfig (fst (ReadOrGenerate (w_fs w) path)) conf' path) with
    | Some e => Err e
    | None => Ok tt
    end /\
  w_fs (snd (bootstrap c w)) =
    fst (WriteConfig (fst (ReadOrGenerate (w_fs w) path)) conf' path) /\
  w_trace (snd (bootstrap c w)) =
    w_trace w ++ [EvReadOrGenerate path; EvWriteConfig conf' path].
Proof.
  intros f path conf' Hid Hread Hparse Hs Hself.
  rewrite (bootstrap_valid_run c w n conf parsed ip Hid Hread Hparse Hs Hself).
  fold f path conf'. cbn [fst snd].
  repeat split. simpl. now rewrite <- app_assoc.
Qed.

(** X9.  [bootstrap] panics in one situation only: [--id] and [--ips] are
    passed, [--self] is not, the configuration is read, every element of
    [--ips] parses, and the machine has no non-loopback address. *)
Theorem bootstrap_panics_iff (c : CmdLine) (w : World) :
  let f := bind_flags c in
  is_Panic (fst (bootstrap c w)) = true <->
  exists n conf parsed addrs,
    arg_id c = Some n /\
    self f = EmptyString /\ ips f <> [] /\
    snd (ReadOrGenerate (w_fs w) (configPath f)) = inr conf /\
    parseIPs (ips f) = Ok parsed /\
    w_ifaddrs w = inr addrs /\ non_loopback addrs = [].
Proof.
  intros f. split.
  - intros Hp.
    destruct (arg_id c) as [n|] eqn:Hid.
    2:{ rewrite (bootstrap_without_id c w Hid) in Hp. discriminate. }
    rewrite (bootstrap_with_id c n w Hid) in Hp. fold f in Hp.
    destruct (list_eq_dec string_dec (ips f) []) as [Hi|Hi];
      destruct (string_dec (self f) EmptyString) as [Hs|Hs].
    + rewrite (RunE_no_flags f w Hi Hs) in Hp. discriminate.
    + exfalso.
      rewrite (RunE_some_flag f w) in Hp by tauto.
      destruct (snd (ReadOrGenerate (w_fs w) (configPath f))) as [e|conf];
        [discriminate|].
      pose proof (parseIPs_never_panics (ips f)) as Hnp.
      destruct (parseIPs (ips f)) as [parsed|e|p]; [|discriminate..].
      cbv zeta in Hp. rewrite (proj2 (self_test f) Hs) in Hp.
      destruct (ParseIP (self f)) as [ip|]; [|discriminate].
      rewrite writeConfig_run in Hp. cbn [fst] in Hp.
      destruct (snd (WriteConfig _ _ _)); discriminate.
    + rewrite (RunE_some_flag f w) in Hp by tauto.
      destruct (snd (ReadOrGenerate (w_fs w) (configPath f))) as [e|conf] eqn:Hread;
        [discriminate|].
      pose proof (parseIPs_never_panics (ips f)) as Hnp.
      destruct (parseIPs (ips f)) as [parsed|e|p] eqn:Hparse; [|discriminate..].
      cbv zeta in Hp. rewrite Hs in Hp. cbn [String.eqb negb] in Hp.
      destruct (w_ifaddrs w) as [e|addrs] eqn:Haddrs.
      * rewrite (ownIP_addrs_error (after_read (configPath f) w) e Haddrs) in Hp.
        discriminate.
      * rewrite (ownIP_cases (after_read (configPath f) w) addrs Haddrs) in Hp.
        exists n, conf, parsed, addrs.
        destruct (non_loopback addrs) as [|ip [|ip' rest]]; [|discriminate..].
        repeat split; auto.
    + exfalso.
      rewrite (RunE_some_flag f w) in Hp by tauto.
      destruct (snd (ReadOrGenerate (w_fs w) (configPath f))) as [e|conf];
        [discriminate|].
      pose proof (parseIPs_never_panics (ips f)) as Hnp.
      destruct (parseIPs (ips f)) as [parsed|e|p]; [|discriminate..].
      cbv zeta in Hp. rewrite (proj2 (self_test f) Hs) in Hp.
      destruct (ParseIP (self f)) as [ip|]; [|discriminate].
      rewrite writeConfig_run in Hp. cbn [fst] in Hp.
      destruct (snd (WriteConfig _ _ _)); discriminate.
  - intros (n & conf & parsed & addrs & Hid & Hs & Hi & Hread & Hparse & Haddrs & Hnone).
    rewrite (bootstrap_with_id c n w Hid). fold f.
    destruct (RunE_auto f w conf parsed Hi Hs Hread Hparse) as (_ & _ & _ & Hpanic).
    rewrite (Hpanic (IndexOutOfRange 0 0)); [reflexivity|].
    rewrite (ownIP_cases (after_read (configPath f) w) addrs Haddrs), Hnone.
    reflexivity.
Qed.

(** ** What is written *)

Lemma configure_agree (conf1 conf2 : Config) (n : Z) (ip : IP)
  (seeds : list SeedServer) :
  ConfigFile conf1 = ConfigFile conf2 ->
  config_rest conf1 = config_rest conf2 ->
  redpanda_rest (Redpanda conf1) = redpanda_rest (Redpanda conf2) ->
  Port (RPCServer (Redpanda conf1)) = Port (RPCServer (Redpanda conf2)) ->
  Port (KafkaApi (Redpanda conf1)) = Port (KafkaApi (Redpanda conf2)) ->
  Port (AdminApi (Redpanda conf1)) = Port (AdminApi (Redpanda conf2)) ->
  configure conf1 n ip seeds = configure conf2 n ip seeds.
Proof.
  destruct conf1 as [file1 [id1 [a1 p1] [ka1 kp1] [aa1 ap1] seeds1 rest1] crest1].
  destruct conf2 as [file2 [id2 [a2 p2] [ka2 kp2] [aa2 ap2] seeds2 rest2] crest2].
  simpl. intros -> -> -> -> -> ->. reflexivity.
Qed.

Lemma configure_again (conf : Config) (n : Z) (ip : IP) (seeds : list SeedServer) :
  configure (configure conf n ip seeds) n ip seeds = configure conf n ip seeds.
Proof. reflexivity. Qed.

(** X10.  What [bootstrap] writes does not depend on the Id, the three
    addresses or the seed servers found in the file: two configurations
    that agree on the path, the ports and the remaining fields are written
    back as one and the same configuration.  The seed servers read are
    replaced, never added to. *)
Theorem bootstrap_overwrites_previous
  (c : CmdLine) (w1 w2 : World) (n : Z) (conf1 conf2 : Config)
  (parsed : list IP) (ip : IP) :
  let f := bind_flags c in
  let path := configPath f in
  arg_id c = Some n ->
  snd (ReadOrGenerate (w_fs w1) path) = inr conf1 ->
  snd (ReadOrGenerate (w_fs w2) path) = inr conf2 ->
  parseIPs (ips f) = Ok parsed ->
  self f <> EmptyString -> ParseIP (self f) = Some ip ->
  ConfigFile conf1 = ConfigFile conf2 ->
  config_rest conf1 = config_rest conf2 ->
  redpanda_rest (Redpanda conf1) = redpanda_rest (Redpanda conf2) ->
  Port (RPCServer (Redpanda conf1)) = Port (RPCServer (Redpanda conf2)) ->
  Port (KafkaApi (Redpanda conf1)) = Port (KafkaApi (Redpanda conf2)) ->
  Port (AdminApi (Redpanda conf1)) = Port (AdminApi (Redpanda conf2)) ->
  exists conf',
    writes (w_trace (snd (bootstrap c w1))) = writes (w_trace w1) ++ [(conf', path)] /\
    writes (w_trace (snd (bootstrap c w2))) = writes (w_trace w2) ++ [(conf', path)] /\
    SeedServers (Redpanda conf') =
      make_seeds (Port (RPCServer (Redpanda DefaultConfig))) parsed.
Proof.
  intros f path Hid Hread1 Hread2 Hparse Hs Hself Hfile Hrest Hrrest Hp1 Hp2 Hp3.
  rewrite (bootstrap_valid_run c w1 n conf1 parsed ip Hid Hread1 Hparse Hs Hself).
  rewrite (bootstrap_valid_run c w2 n conf2 parsed ip Hid Hread2 Hparse Hs Hself).
  fold f path. cbn [snd].
  rewrite !writes_after_write, !writes_after_read.
  rewrite (configure_agree conf1 conf2 n ip _ Hfile Hrest Hrrest Hp1 Hp2 Hp3).
  eexists. repeat split.
Qed.

(** X11.  Running [bootstrap] again with the same command line, on a file
    that reads back as it was written, writes the same configuration once
    more. *)
Theorem bootstrap_again_writes_same
  (c : CmdLine) (w : World) (n : Z) (conf : Config) (parsed : list IP) (ip : IP) :
  let f := bind_flags c in
  let path := configPath f in
  let conf' :=
    configure conf n ip (make_seeds (Port (RPCServer (Redpanda DefaultConfig))) parsed) in
  arg_id c = Some n ->
  snd (ReadOrGenerate (w_fs w) path) = inr conf ->
  parseIPs (ips f) = Ok parsed ->
  self f <> EmptyString -> ParseIP (self f) = Some ip ->
  snd (ReadOrGenerate (w_fs (snd (bootstrap c w))) path) = inr conf' ->
  writes (w_trace (snd (bootstrap c (snd (bootstrap c w))))) =
  writes (w_trace w) ++ [(conf', path); (conf', path)].
Proof.
  intros f path conf' Hid Hread Hparse Hs Hself Hback.
  rewrite (bootstrap_valid_run c _ n conf' parsed ip Hid Hback Hparse Hs Hself).
  fold f path. cbn [snd]. rewrite writes_after_write, writes_after_read.
  rewrite (bootstrap_valid_run c w n conf parsed ip Hid Hread Hparse Hs Hself).
  fold f path conf'. cbn [snd]. rewrite writes_after_write, writes_after_read.
  unfold conf'. rewrite configure_again. now rewrite <- app_assoc.
Qed.

Lemma seed_ids_from (port : Z) (l : list IP) :
  forall start,
    map seed_Id
      (map (fun p => seed_at port (fst p) (snd p)) (combine (seq start (length l)) l)) =
    map Z.of_nat (seq start (length l)).
Proof.
  induction l as [|ip l IH]; intros start; simpl; [reflexivity|].
  now rewrite IH.
Qed.

Lemma seed_hosts_from (port : Z) (l : list IP) :
  forall start,
    map Host
      (map (fun p => seed_at port (fst p) (snd p)) (combine (seq start (length l)) l)) =
    map (fun ip => {| Address := IP_String ip; Port := port |}) l.
Proof.
  induction l as [|ip l IH]; intros start; simpl; [reflexivity|].
  now rewrite IH.
Qed.

(** X12.  The seeds loop gives the ids 0, 1, ... in order, so no two seeds
    share an id, also when an address is given twice; the hosts are the
    addresses given, none dropped, all with the one port. *)
Theorem make_seeds_ids_and_hosts (port : Z) (l : list IP) :
  map seed_Id (make_seeds port l) = map Z.of_nat (seq 0 (length l)) /\
  NoDup (map seed_Id (make_seeds port l)) /\
  map Host (make_seeds port l) =
    map (fun ip => {| Address := IP_String ip; Port := port |}) l.
Proof.
  rewrite make_seeds_spec, seed_ids_from, seed_hosts_from.
  repeat split.
  apply Finite.Injective_map_NoDup; [|apply seq_NoDup].
  intros a b. apply Nat2Z.inj.
Qed.

End CommandMore.

(* ================================================================== *)
(** * Facts about [config set] *)

Section SetFacts.
Context `{ConfigPkg}.
Variable config_Set : Fs -> string -> string -> string -> string -> Fs * option error.

(** X13.  [set] hands exactly two arguments to [config.Set], the first as
    the key and the second as the value, and answers what it answers; with
    any other number of arguments it calls nothing and returns cobra's
    error.  [args[0]] and [args[1]] are never out of range. *)
Theorem set_checks_arity (c : SetCmdLine) (args : list string) (fs : Fs) :
  let f := bind_set_flags c in
  set config_Set c args fs =
    match args with
    | [key; value] =>
        (match snd (config_Set fs key value (format f) (set_configPath f)) with
         | Some e => Err e
         | None => Ok tt
         end,
         fst (config_Set fs key value (format f) (set_configPath f)))
    | _ => (Err (err_exact_args 2 (len args)), fs)
    end /\
  is_Panic (fst (set config_Set c args fs)) = false.
Proof.
  intros f. unfold set, ExactArgs.
  destruct args as [|key [|value [|third rest]]].
  - split; reflexivity.
  - split; reflexivity.
  - change (len [key; value] =? 2) with true. cbv iota. unfold set_RunE.
    change (index [key; value] 0) with (Ok key).
    change (index [key; value] 1) with (Ok value).
    cbv iota. fold f.
    destruct (config_Set fs key value (format f) (set_configPath f)) as [fs' [e|]];
      split; reflexivity.
  - replace (len (key :: value :: third :: rest) =? 2) with false; [split; reflexivity|].
    symmetry. apply Z.eqb_neq. unfold len. simpl length. lia.
Qed.

End SetFacts.

(* ================================================================== *)
(** * More about the probe *)

Section ProbeMore.
Variable metrics_name : string -> string.

Lemma create_metric_labels_inj (n1 n2 : ntp) :
  create_metric_labels n1 = create_metric_labels n2 -> n1 = n2.
Proof.
  destruct n1 as [ns1 [topic1 part1]], n2 as [ns2 [topic2 part2]].
  unfold create_metric_labels, label. simpl.
  intros [= -> -> ->]. reflexivity.
Qed.

(** X14.  The labels tell the groups apart: two identities get the same
    labels only when they are the same namespace, topic and partition. *)
Theorem create_metric_labels_injective (n1 n2 : ntp) :
  create_metric_labels n1 = create_metric_labels n2 <-> n1 = n2.
Proof.
  split; [apply create_metric_labels_inj|now intros ->].
Qed.

(** X15.  Every counter the probe holds is exported, each by a metric of
    its own: two states of the counters that sample alike are equal. *)
Theorem sample_determines_counters (labels : list label_instance) (cs cs' : counters) :
  sample cs (raft_metrics labels) = sample cs' (raft_metrics labels) <-> cs = cs'.
Proof.
  split; [|now intros ->].
  destruct cs, cs'. unfold sample. simpl.
  intros E. injection E as -> -> -> -> -> -> -> -> -> -> -> -> ->. reflexivity.
Qed.




End ProbeMore.

(* ================================================================== *)
(** * The facts at work, on the machine in memory *)

Import InMemory.

(** The claim C3 fails on the probe: the counters [setup_metrics] registers
    for a group hold none for append requests sent. *)
Lemma no_sent_append_counter :
  existsb (counts_traffic sent append)
    (registered (setup_metrics (fun s => s) fresh_probe raft0)) = false.
Proof. reflexivity. Qed.

(** The claim C7 fails on [--id -5]: the run ends well and the Id written
    is -5. *)
Lemma negative_id_is_stored :
  let r := bootstrap (cmdline None (Some "10.0.0.1"%string) (Some (-5)))
             (machine [lo; eth0]) in
  fst r = Ok tt /\
  map (fun cp => Id (Redpanda (fst cp))) (writes (w_trace (snd r))) = [-5].
Proof. split; reflexivity. Qed.

Lemma ownIP_single_address_refused_witness :
  let c := cmdline (Some ["10.0.0.2"%string]) None (Some 1) in
  let w := machine [lo; eth0] in
  fst (ownIP w) = Err err_none /\
  fst (bootstrap c w) = Err err_none /\
  writes (w_trace (snd (bootstrap c w))) = writes (w_trace w).
Proof.
  intros c w.
  eapply (ownIP_single_address_refused c w [lo; eth0] [192; 168; 1; 10] 1).
  - reflexivity.
  - reflexivity.
  - reflexivity.
  - reflexivity.
  - discriminate.
  - reflexivity.
  - reflexivity.
Defined.

Lemma ownIP_index_panics_iff_empty_witness :
  let w := machine [lo] in
  (non_loopback [lo] = [] -> fst (ownIP w) = Panic (IndexOutOfRange 0 0)) /\
  (is_Panic (fst (ownIP w)) = true <-> ownIP_filtered [lo] = []).
Proof.
  intros w. apply (ownIP_index_panics_iff_empty w [lo]). reflexivity.
Defined.


Lemma bootstrap_seeds_by_position_witness :
  let c := cmdline (Some ["10.0.0.1"; "10.0.0.2"; "10.0.0.3"]%string)
             (Some "10.0.0.2"%string) (Some 1) in
  let w := machine [lo; eth0; eth1] in
  let f := bind_flags c in
  exists conf',
    w_trace (snd (bootstrap c w)) =
      w_trace w ++ [EvReadOrGenerate (configPath f);
                    EvWriteConfig conf' (configPath f)] /\
    length (SeedServers (Redpanda conf')) = length (ips f) /\
    forall (i : nat) (s : string),
      nth_error (ips f) i = Some s ->
      exists ip_i,
        ParseIP s = Some ip_i /\
        nth_error (SeedServers (Redpanda conf')) i =
        Some {| seed_Id := Z.of_nat i;
                Host := {| Address := IP_String ip_i;
                           Port := Port (RPCServer (Redpanda DefaultConfig)) |} |}.
Proof.
  intros c w f.
  eapply (bootstrap_seeds_by_position c w 1 _ [10; 0; 0; 2]).
  - reflexivity.
  - reflexivity.
  - repeat constructor; discriminate.
  - discriminate.
  - reflexivity.
Defined.

Lemma bootstrap_id_required_and_stored_witness :
  let c := cmdline None (Some "10.0.0.1"%string) (Some 4) in
  let w := machine [lo; eth0] in
  exists n conf',
    arg_id c = Some n /\
    writes (w_trace (snd (bootstrap c w))) =
      writes (w_trace w) ++ [(conf', configPath (bind_flags c))] /\
    Id (Redpanda conf') = n.
Proof.
  intros c w.
  apply (proj2 (bootstrap_id_required_and_stored c w) (snd (bootstrap c w))).
  reflexivity.
Defined.

Lemma bootstrap_explicit_self_witness :
  let c := cmdline (Some ["10.0.0.1"; "10.0.0.2"]%string)
             (Some "10.0.0.1"%string) (Some 0) in
  let w := machine [lo; eth0; eth1] in
  (exists t, w_trace (snd (bootstrap c w)) = w_trace w ++ t /\
             asked_addrs t = false) /\
  (exists conf',
      writes (w_trace (snd (bootstrap c w))) =
        writes (w_trace w) ++ [(conf', configPath (bind_flags c))] /\
      Address (RPCServer (Redpanda conf')) = "10.0.0.1"%string /\
      Address (KafkaApi (Redpanda conf')) = "10.0.0.1"%string /\
      Address (AdminApi (Redpanda conf')) = "10.0.0.1"%string).
Proof.
  intros c w.
  destruct (bootstrap_explicit_self c w 0) as (Hquiet & Hvalid & _).
  - reflexivity.
  - discriminate.
  - split; [exact Hquiet|].
    eapply (Hvalid [10; 0; 0; 1]); reflexivity.
Defined.

Lemma bootstrap_root_node_witness :
  let c := cmdline None (Some "10.0.0.1"%string) (Some 0) in
  let w := machine [lo; eth0] in
  fst (bootstrap c w) = Ok tt /\
  map (fun cp => SeedServers (Redpanda (fst cp)))
      (writes (w_trace (snd (bootstrap c w)))) = [[]].
Proof.
  intros c w.
  destruct (bootstrap_root_node c w 0 [10; 0; 0; 1]
              {| ConfigFile := ConfigFile default_config;
                 Redpanda := Redpanda default_config;
                 config_rest := config_rest default_config |})
    as (Hok & Hwrites & _ & _).
  - reflexivity.
  - reflexivity.
  - discriminate.
  - reflexivity.
  - reflexivity.
  - reflexivity.
  - split; [exact Hok|]. rewrite Hwrites. reflexivity.
Defined.

Lemma bootstrap_frame_witness :
  let c := cmdline (Some ["10.0.0.1"; "10.0.0.2"]%string)
             (Some "10.0.0.2"%string) (Some 1) in
  let w := machine [lo; eth0] in
  exists conf conf' ip,
    snd (ReadOrGenerate (w_fs w) (configPath (bind_flags c))) = inr conf /\
    ((self (bind_flags c) <> EmptyString /\
      ParseIP (self (bind_flags c)) = Some ip) \/
     (self (bind_flags c) = EmptyString /\
      fst (ownIP (after_read (configPath (bind_flags c)) w)) = Ok ip)) /\
    writes (w_trace (snd (bootstrap c w))) =
      writes (w_trace w) ++ [(conf', configPath (bind_flags c))] /\
    ConfigFile conf' = ConfigFile conf /\
    config_rest conf' = config_rest conf /\
    redpanda_rest (Redpanda conf') = redpanda_rest (Redpanda conf) /\
    Port (RPCServer (Redpanda conf')) = Port (RPCServer (Redpanda conf)) /\
    Port (KafkaApi (Redpanda conf')) = Port (KafkaApi (Redpanda conf)) /\
    Port (AdminApi (Redpanda conf')) = Port (AdminApi (Redpanda conf)) /\
    Address (RPCServer (Redpanda conf')) = IP_String ip /\
    Address (KafkaApi (Redpanda conf')) = IP_String ip /\
    Address (AdminApi (Redpanda conf')) = IP_String ip.
Proof.
  intros c w.
  apply (bootstrap_frame c w (snd (bootstrap c w))).
  reflexivity.
Defined.

Lemma parseIPs_reports_first_invalid_witness :
  parseIPs ["10.0.0.1"; "10.0.0"; "10.0.0.3"; "nope"]%string =
  Err "10.0.0 is not a valid IP."%string.
Proof.
  apply (parseIPs_reports_first_invalid
           ["10.0.0.1"%string] ["10.0.0.3"; "nope"]%string "10.0.0"%string).
  - repeat constructor; discriminate.
  - reflexivity.
Defined.

Lemma bootstrap_multiple_addresses_witness :
  let c := cmdline (Some ["10.0.0.2"%string]) None (Some 1) in
  let w := machine [lo; eth0; eth1] in
  fst (ownIP w) = Err err_multiple /\
  fst (bootstrap c w) = Err err_multiple /\
  writes (w_trace (snd (bootstrap c w))) = writes (w_trace w).
Proof.
  intros c w.
  eapply (bootstrap_multiple_addresses c w [lo; eth0; eth1]
            [192; 168; 1; 10] [10; 0; 0; 7] [] 1).
  - reflexivity.
  - reflexivity.
  - reflexivity.
  - reflexivity.
  - discriminate.
  - reflexivity.
  - reflexivity.
Defined.

Lemma bootstrap_without_self_never_writes_witness :
  let c := cmdline (Some ["10.0.0.2"%string]) None (Some 1) in
  let w := machine [lo; eth0] in
  is_Ok (fst (bootstrap c w)) = false /\
  writes (w_trace (snd (bootstrap c w))) = writes (w_trace w).
Proof.
  intros c w. apply (bootstrap_without_self_never_writes c w). reflexivity.
Defined.

Lemma bootstrap_invalid_ip_reported_first_witness :
  let c := cmdline (Some ["10.0.0.2"; "10.0.0.300"; "x"]%string)
             (Some "not-an-ip"%string) (Some 1) in
  let w := machine [lo; eth0] in
  bootstrap c w =
  (Err "10.0.0.300 is not a valid IP."%string,
   after_read (configPath (bind_flags c)) w).
Proof.
  intros c w.
  eapply (bootstrap_invalid_ip_reported_first c w 1 _
            ["10.0.0.2"%string] ["x"%string] "10.0.0.300"%string).
  - reflexivity.
  - reflexivity.
  - reflexivity.
  - repeat constructor; discriminate.
  - reflexivity.
Defined.

Lemma bootstrap_refused_before_any_call_witness :
  let c := cmdline None None (Some 1) in
  let w := machine [lo; eth0] in
  is_Err (fst (bootstrap c w)) = true /\ snd (bootstrap c w) = w.
Proof.
  intros c w. apply (bootstrap_refused_before_any_call c w).
  right. split; reflexivity.
Defined.

Lemma bootstrap_returns_write_result_witness :
  let c := cmdline (Some ["10.0.0.1"; "10.0.0.2"]%string)
             (Some "10.0.0.2"%string) (Some 1) in
  let w := machine [lo; eth0] in
  fst (bootstrap c w) = Ok tt /\
  length (w_trace (snd (bootstrap c w))) = 2%nat.
Proof.
  intros c w.
  destruct (bootstrap_returns_write_result c w 1
              {| ConfigFile := ConfigFile default_config;
                 Redpanda := Redpanda default_config;
                 config_rest := config_rest default_config |}
              [[10; 0; 0; 1]; [10; 0; 0; 2]] [10; 0; 0; 2])
    as (Hres & _ & Htrace).
  - reflexivity.
  - reflexivity.
  - reflexivity.
  - discriminate.
  - reflexivity.
  - split; [rewrite Hres; reflexivity|rewrite Htrace; reflexivity].
Defined.

Lemma bootstrap_overwrites_previous_witness :
  let c := cmdline (Some ["10.0.0.1"; "10.0.0.2"]%string)
             (Some "10.0.0.2"%string) (Some 1) in
  let path := ConfigFile default_config in
  let old :=
    {| ConfigFile := path;
       Redpanda :=
         {| Id := 7;
            RPCServer := {| Address := "172.16.0.9"; Port := 33145 |};
            KafkaApi := {| Address := "172.16.0.9"; Port := 9092 |};
            AdminApi := {| Address := "172.16.0.9"; Port := 9644 |};
            SeedServers :=
              [{| seed_Id := 0;
                  Host := {| Address := "172.16.0.1"; Port := 33145 |} |}];
            redpanda_rest := redpanda_rest (Redpanda default_config) |};
       config_rest := config_rest default_config |} in
  let w1 := machine [lo; eth0] in
  let w2 := {| w_fs := ([(path, old)] : files);
               w_ifaddrs := inr [lo; eth0]; w_trace := [] |} in
  exists conf',
    writes (w_trace (snd (bootstrap c w1))) = writes (w_trace w1) ++ [(conf', path)] /\
    writes (w_trace (snd (bootstrap c w2))) = writes (w_trace w2) ++ [(conf', path)] /\
    SeedServers (Redpanda conf') =
      make_seeds (Port (RPCServer (Redpanda DefaultConfig)))
        [[10; 0; 0; 1]; [10; 0; 0; 2]].
Proof.
  intros c path old w1 w2.
  eapply (bootstrap_overwrites_previous c w1 w2 1 _ old
            [[10; 0; 0; 1]; [10; 0; 0; 2]] [10; 0; 0; 2]).
  - reflexivity.
  - reflexivity.
  - reflexivity.
  - reflexivity.
  - discriminate.
  - reflexivity.
  - reflexivity.
  - reflexivity.
  - reflexivity.
  - reflexivity.
  - reflexivity.
  - reflexivity.
Defined.

Lemma bootstrap_again_writes_same_witness :
  let c := cmdline (Some ["10.0.0.1"; "10.0.0.2"]%string)
             (Some "10.0.0.2"%string) (Some 1) in
  let w := machine [lo; eth0] in
  exists conf',
    writes (w_trace (snd (bootstrap c (snd (bootstrap c w))))) =
    writes (w_trace w) ++ [(conf', configPath (bind_flags c));
                           (conf', configPath (bind_flags c))].
Proof.
  intros c w. eexists.
  eapply (bootstrap_again_writes_same c w 1 _
            [[10; 0; 0; 1]; [10; 0; 0; 2]] [10; 0; 0; 2]).
  - reflexivity.
  - reflexivity.
  - reflexivity.
  - discriminate.
  - reflexivity.
  - reflexivity.
Defined.
